(** * An in-memory store backend: repositories, orders, payments, reviews

    A shallow embedding of [src/index.ts] and the properties of its generic
    repository ([InMemoryDatabase]) and of the five services built on it.

    Conventions of the embedding.
    - A JavaScript [number] is an IEEE 754 binary64 value: Rocq's primitive
      [float], with [+ - * /], [<] and [===] as [PrimFloat.add], [sub],
      [mul], [div], [ltb] and [eqb].
    - A [Date] is its time value, an integral number of milliseconds ([Z]);
      [Date.now()] and [new Date()] both read the clock.
    - [Map<string, T>] is an association list in insertion order, which is
      the order [Map.prototype.values] iterates in.
    - The clock and [Math.random()] are an oracle of the execution (a
      [World]); the services run in a state monad over the five
      repositories.
    - [console.log] is not modelled; an [async] method without [await] runs
      to completion, so it is an ordinary function here. *)

From Stdlib Require Import ZArith List String Ascii Bool Floats Lia.
From Stdlib Require Import DecimalString DecimalZ.
From Stdlib Require QArith Qround.
Import ListNotations.

Set Implicit Arguments.

Local Open Scope string_scope.
Local Open Scope list_scope.

(* ================================================================== *)
(** ** JavaScript primitives *)

Definition number := float.
Definition Date := Z.
Bind Scope float_scope with number.
Bind Scope Z_scope with Date.

(** [x === y] on property values. *)
Class StrictEq (A : Type) := strict_eq : A -> A -> bool.
#[export] Instance StrictEq_string : StrictEq string := String.eqb.
#[export] Instance StrictEq_number : StrictEq number := PrimFloat.eqb.

(** [`${n}`] for an integral time value: its decimal digits, with a leading
    [-] below zero. *)
Definition decimal (n : Z) : string := NilZero.string_of_int (Z.to_int n).

(** [array.length] as a number. *)
Definition Number_of_nat (n : nat) : number :=
  PrimFloat.of_uint63 (Uint63.of_Z (Z.of_nat n)).

(** The string [x.toFixed(1)] returns, read as data: [Fixed neg n] is the
    sign, the digits of [n] and a point before the last digit, so it
    denotes [n / 10]; [Verbatim x] is [String(x)], returned for [NaN], the
    infinities and magnitudes from [10^21] on. *)
Inductive FixedString :=
| Fixed (neg : bool) (n : Z)
| Verbatim (x : number).

(** The integer [n] for which [n / 10 - m * 2^e] is closest to zero, the
    larger one when there are two. *)
Definition nearest_tenths (m : positive) (e : Z) : Z :=
  if (0 <=? e)%Z then 10 * Z.pos m * 2 ^ e
  else (20 * Z.pos m + 2 ^ (- e)) / 2 ^ (- e + 1).

Definition toFixed1 (x : number) : FixedString :=
  match Prim2SF x with
  | S754_zero _ => Fixed false 0
  | S754_finite neg m e =>
      if (10 ^ 21 <=? Z.pos m * 2 ^ e)%Z then Verbatim x
      else Fixed neg (nearest_tenths m e)
  | _ => Verbatim x
  end.

(** [parseFloat] on such a string: the binary64 value nearest to the
    decimal it denotes. *)
Definition parseFloat (s : FixedString) : number :=
  match s with
  | Fixed neg n =>
      match n with
      | Z.pos p =>
          SF2Prim (SFdiv prec emax (S754_finite neg p 0) (S754_finite false 10 0))
      | _ => SF2Prim (S754_zero neg)
      end
  | Verbatim x => x
  end.

(* ================================================================== *)
(** ** [Map<string, T>] *)

Section JsMap.
Variable T : Type.

Definition Map := list (string * T).

Fixpoint Map_get (m : Map) (k : string) : option T :=
    match m with
    | [] => None
    | (k', v) :: rest => if String.eqb k' k then Some v else Map_get rest k
    end.

Definition Map_has (m : Map) (k : string) : bool :=
    match Map_get m k with Some _ => true | None => false end.

  (** [set] replaces the value of a present key where it stands and appends
      a new key at the end. *)
Fixpoint Map_set (m : Map) (k : string) (v : T) : Map :=
    match m with
    | [] => [(k, v)]
    | (k', v') :: rest =>
        if String.eqb k' k then (k', v) :: rest
        else (k', v') :: Map_set rest k v
    end.

  (** [delete] returns whether the key was present. *)
Fixpoint Map_delete (m : Map) (k : string) : bool * Map :=
    match m with
    | [] => (false, [])
    | (k', v') :: rest =>
        if String.eqb k' k then (true, rest)
        else let (b, rest') := Map_delete rest k in (b, (k', v') :: rest')
    end.

Definition Map_values (m : Map) : list T := map snd m.
End JsMap.

(* ================================================================== *)
(** ** Constants and enums *)

Inductive ProductCategory :=
| Electronics | Books | HomeAppliances | Clothing | Food | Sports.

Inductive OrderStatus := Pending | Processing | Shipped | Delivered | Cancelled.

Inductive UserRole := Customer | Admin | Seller.

Inductive PaymentMethod := CreditCard | PayPal | BankTransfer | CashOnDelivery.

(** ['Paid' | 'Unpaid'] *)
Inductive PaymentStatus := Paid | Unpaid.

(** ['Success' | 'Failed' | 'Refunded'] *)
Inductive TransactionStatus := Success | Failed | Refunded.

Definition ProductCategory_eqb (a b : ProductCategory) : bool :=
  match a, b with
  | Electronics, Electronics | Books, Books | HomeAppliances, HomeAppliances
  | Clothing, Clothing | Food, Food | Sports, Sports => true
  | _, _ => false
  end.

Definition OrderStatus_eqb (a b : OrderStatus) : bool :=
  match a, b with
  | Pending, Pending | Processing, Processing | Shipped, Shipped
  | Delivered, Delivered | Cancelled, Cancelled => true
  | _, _ => false
  end.

Definition PaymentStatus_eqb (a b : PaymentStatus) : bool :=
  match a, b with
  | Paid, Paid | Unpaid, Unpaid => true
  | _, _ => false
  end.

Definition TransactionStatus_eqb (a b : TransactionStatus) : bool :=
  match a, b with
  | Success, Success | Failed, Failed | Refunded, Refunded => true
  | _, _ => false
  end.

(* ================================================================== *)
(** ** Interfaces *)

(** [T extends BaseEntity]: the three base properties beside the
    properties of [New<T> = Omit<T, 'id' | 'createdAt' | 'updatedAt'>]. *)
Record Entity (N : Type) := mkEntity {
  id : string;
  createdAt : Date;
  updatedAt : Date;
  fields : N
}.

(** [{ ...a, ...b }] on one property: the value [b] provides, else [a]'s. *)
Definition spread {A : Type} (a : A) (b : option A) : A :=
  match b with Some v => v | None => a end.

(** The same on an optional property, which [a] may lack. *)
Definition spread_opt {A : Type} (a : option A) (b : option A) : option A :=
  match b with Some v => Some v | None => a end.

(** What [update] needs of an entity type: its [Partial<...>] and the
    object spread [{ ...existing, ...updates }]. *)
Class Updatable (N : Type) := {
  Partial : Type;
  merge : N -> Partial -> N
}.

Record Address := {
  street : string;
  city : string;
  state : string;
  zipCode : string;
  country : string
}.

Module User.
  (** [passwordHash] is optional here because an object returned
      [as User] may lack the property (see [getUserProfile]). *)
Record New := {
    username : string;
    email : string;
    passwordHash : option string;
    role : UserRole;
    address : option Address;
    phone : option string
  }.

Record Updates := {
    username' : option string;
    email' : option string;
    passwordHash' : option string;
    role' : option UserRole;
    address' : option Address;
    phone' : option string
  }.

Definition spread_updates (u : New) (p : Updates) : New :=
    {| username := spread (username u) (username' p);
       email := spread (email u) (email' p);
       passwordHash := spread_opt (passwordHash u) (passwordHash' p);
       role := spread (role u) (role' p);
       address := spread_opt (address u) (address' p);
       phone := spread_opt (phone u) (phone' p) |}.

  (** [Partial<Omit<User, 'id' | 'createdAt' | 'passwordHash'>>], the
      parameter type of [updateUserProfile]. *)
Record ProfileUpdates := {
    new_username : option string;
    new_email : option string;
    new_role : option UserRole;
    new_address : option Address;
    new_phone : option string
  }.

Definition as_updates (p : ProfileUpdates) : Updates :=
    {| username' := new_username p;
       email' := new_email p;
       passwordHash' := None;
       role' := new_role p;
       address' := new_address p;
       phone' := new_phone p |}.

  (** [const { passwordHash, ...safeUser } = user] *)
Definition omit_passwordHash (u : New) : New :=
    {| username := username u;
       email := email u;
       passwordHash := None;
       role := role u;
       address := address u;
       phone := phone u |}.
End User.

#[export] Instance Updatable_User : Updatable User.New :=
  {| Partial := User.Updates; merge := User.spread_updates |}.

Abbreviation User := (Entity User.New).

(** [Pick<User, 'username' | 'passwordHash'>] *)
Record UserCredentials := {
  cred_username : string;
  cred_passwordHash : string
}.

Module Product.
Record New := {
    name : string;
    description : string;
    price : number;
    category : ProductCategory;
    stock : number;
    imageUrl : string;
    sellerId : string;
    rating : option number;
    reviewsCount : option number
  }.

Record Updates := {
    name' : option string;
    description' : option string;
    price' : option number;
    category' : option ProductCategory;
    stock' : option number;
    imageUrl' : option string;
    sellerId' : option string;
    rating' : option number;
    reviewsCount' : option number
  }.

Definition no_updates : Updates :=
    {| name' := None; description' := None; price' := None;
       category' := None; stock' := None; imageUrl' := None;
       sellerId' := None; rating' := None; reviewsCount' := None |}.

Definition spread_updates (p : New) (u : Updates) : New :=
    {| name := spread (name p) (name' u);
       description := spread (description p) (description' u);
       price := spread (price p) (price' u);
       category := spread (category p) (category' u);
       stock := spread (stock p) (stock' u);
       imageUrl := spread (imageUrl p) (imageUrl' u);
       sellerId := spread (sellerId p) (sellerId' u);
       rating := spread_opt (rating p) (rating' u);
       reviewsCount := spread_opt (reviewsCount p) (reviewsCount' u) |}.

  (** [{ stock: s }] *)
Definition only_stock (s : number) : Updates :=
    {| name' := None; description' := None; price' := None;
       category' := None; stock' := Some s; imageUrl' := None;
       sellerId' := None; rating' := None; reviewsCount' := None |}.

  (** [{ rating: r, reviewsCount: c }] *)
Definition only_rating (r c : number) : Updates :=
    {| name' := None; description' := None; price' := None;
       category' := None; stock' := None; imageUrl' := None;
       sellerId' := None; rating' := Some r; reviewsCount' := Some c |}.
End Product.

#[export] Instance Updatable_Product : Updatable Product.New :=
  {| Partial := Product.Updates; merge := Product.spread_updates |}.

Abbreviation Product := (Entity Product.New).

Record OrderItem := {
  productId : string;
  productName : string;
  quantity : number;
  priceAtOrder : number
}.

(** [{ productId: string; quantity: number }], an element of the [items]
    argument of [createOrder]. *)
Record LineItem := {
  item_productId : string;
  item_quantity : number
}.

Module Order.
Record New := {
    userId : string;
    items : list OrderItem;
    totalAmount : number;
    status : OrderStatus;
    shippingAddress : Address;
    paymentMethod : PaymentMethod;
    paymentStatus : PaymentStatus;
    shippedDate : option Date;
    deliveredDate : option Date
  }.

Record Updates := {
    userId' : option string;
    items' : option (list OrderItem);
    totalAmount' : option number;
    status' : option OrderStatus;
    shippingAddress' : option Address;
    paymentMethod' : option PaymentMethod;
    paymentStatus' : option PaymentStatus;
    shippedDate' : option Date;
    deliveredDate' : option Date
  }.

Definition no_updates : Updates :=
    {| userId' := None; items' := None; totalAmount' := None;
       status' := None; shippingAddress' := None; paymentMethod' := None;
       paymentStatus' := None; shippedDate' := None; deliveredDate' := None |}.

Definition spread_updates (o : New) (u : Updates) : New :=
    {| userId := spread (userId o) (userId' u);
       items := spread (items o) (items' u);
       totalAmount := spread (totalAmount o) (totalAmount' u);
       status := spread (status o) (status' u);
       shippingAddress := spread (shippingAddress o) (shippingAddress' u);
       paymentMethod := spread (paymentMethod o) (paymentMethod' u);
       paymentStatus := spread (paymentStatus o) (paymentStatus' u);
       shippedDate := spread_opt (shippedDate o) (shippedDate' u);
       deliveredDate := spread_opt (deliveredDate o) (deliveredDate' u) |}.

  (** [{ status: s }] *)
Definition only_status (s : OrderStatus) : Updates :=
    {| userId' := None; items' := None; totalAmount' := None;
       status' := Some s; shippingAddress' := None; paymentMethod' := None;
       paymentStatus' := None; shippedDate' := None; deliveredDate' := None |}.

  (** [{ shippedDate: d }] *)
Definition only_shippedDate (d : Date) : Updates :=
    {| userId' := None; items' := None; totalAmount' := None;
       status' := None; shippingAddress' := None; paymentMethod' := None;
       paymentStatus' := None; shippedDate' := Some d; deliveredDate' := None |}.

  (** [{ deliveredDate: d }] *)
Definition only_deliveredDate (d : Date) : Updates :=
    {| userId' := None; items' := None; totalAmount' := None;
       status' := None; shippingAddress' := None; paymentMethod' := None;
       paymentStatus' := None; shippedDate' := None; deliveredDate' := Some d |}.

  (** [{ paymentStatus: 'Paid', status: OrderStatus.Processing }] *)
Definition paid_processing : Updates :=
    {| userId' := None; items' := None; totalAmount' := None;
       status' := Some Processing; shippingAddress' := None;
       paymentMethod' := None; paymentStatus' := Some Paid;
       shippedDate' := None; deliveredDate' := None |}.
End Order.

#[export] Instance Updatable_Order : Updatable Order.New :=
  {| Partial := Order.Updates; merge := Order.spread_updates |}.

Abbreviation Order := (Entity Order.New).

Module Review.
Record New := {
    productId : string;
    userId : string;
    rating : number;
    comment : string
  }.

Record Updates := {
    productId' : option string;
    userId' : option string;
    rating' : option number;
    comment' : option string
  }.

Definition spread_updates (r : New) (u : Updates) : New :=
    {| productId := spread (productId r) (productId' u);
       userId := spread (userId r) (userId' u);
       rating := spread (rating r) (rating' u);
       comment := spread (comment r) (comment' u) |}.
End Review.

#[export] Instance Updatable_Review : Updatable Review.New :=
  {| Partial := Review.Updates; merge := Review.spread_updates |}.

Abbreviation Review := (Entity Review.New).

Module PaymentTransaction.
Record New := {
    orderId : string;
    userId : string;
    amount : number;
    method : PaymentMethod;
    transactionId : string;
    status : TransactionStatus
  }.

Record Updates := {
    orderId' : option string;
    userId' : option string;
    amount' : option number;
    method' : option PaymentMethod;
    transactionId' : option string;
    status' : option TransactionStatus
  }.

Definition spread_updates (t : New) (u : Updates) : New :=
    {| orderId := spread (orderId t) (orderId' u);
       userId := spread (userId t) (userId' u);
       amount := spread (amount t) (amount' u);
       method := spread (method t) (method' u);
       transactionId := spread (transactionId t) (transactionId' u);
       status := spread (status t) (status' u) |}.
End PaymentTransaction.

#[export] Instance Updatable_PaymentTransaction :
  Updatable PaymentTransaction.New :=
  {| Partial := PaymentTransaction.Updates;
     merge := PaymentTransaction.spread_updates |}.

Abbreviation PaymentTransaction := (Entity PaymentTransaction.New).

(** [ApiResponse<T>]'s [error] strings, one constructor for each message
    of the source; the two with a template carry its holes. *)
Inductive ErrorMessage :=
| UsernameExists                  (* 'Username already exists.' *)
| UserNotFound                    (* 'User not found.' *)
| InvalidCredentials              (* 'Invalid credentials.' *)
| PriceAndStockMustBePositive     (* 'Price and stock must be positive.' *)
| ProductNotFound                 (* 'Product not found.' *)
| FailedToDeleteProduct           (* 'Failed to delete product.' *)
| ProductWithIdNotFound (productId : string)
    (* `Product with ID ${item.productId} not found.` *)
| NotEnoughStock (name : string) (available requested : number)
    (* `Not enough stock for product '${product.name}'. Available:
       ${product.stock}, Requested: ${item.quantity}.` *)
| OrderNotFound                   (* 'Order not found.' *)
| InvalidOrderOrAlreadyPaid       (* 'Invalid order or order already paid.' *)
| PaymentFailed                   (* 'Payment failed.' *)
| RatingOutOfRange                (* 'Rating must be between 1 and 5.' *)
| ProductNotFoundForReview.       (* 'Product not found for review.' *)

Record ApiResponse (T : Type) := {
  success : bool;
  data : option T;
  message : option string;
  error : option ErrorMessage
}.

Arguments Build_ApiResponse {T}.

(** [{ success: true, data }] *)
Definition ok {T : Type} (d : T) : ApiResponse T :=
  Build_ApiResponse true (Some d) None None.

(** [{ success: false, error }] *)
Definition fail {T : Type} (e : ErrorMessage) : ApiResponse T :=
  Build_ApiResponse false None None (Some e).

(* ================================================================== *)
(** ** The execution environment and the state monad *)

(** What an execution reads from outside: the [n]-th reading of the clock,
    the [n]-th value of [Math.random()], and the engine's
    [Number.prototype.toString(36)] (whose digits ECMA-262 leaves to the
    implementation). *)
Record World := {
  clock : nat -> Date;
  random : nat -> number;
  radix36 : number -> string
}.

(** The five module-level repositories ([usersDb] ... [paymentsDb]) and
    how many clock readings and random values have been consumed. *)
Record Store := {
  usersDb : Map User;
  productsDb : Map Product;
  ordersDb : Map Order;
  reviewsDb : Map Review;
  paymentsDb : Map PaymentTransaction;
  ticks : nat;
  draws : nat
}.

Definition empty_store : Store :=
  {| usersDb := []; productsDb := []; ordersDb := []; reviewsDb := [];
     paymentsDb := []; ticks := 0; draws := 0 |}.

Definition M (A : Type) : Type := World -> Store -> A * Store.

Definition ret {A : Type} (a : A) : M A := fun _ s => (a, s).

Definition bind {A B : Type} (m : M A) (k : A -> M B) : M B :=
  fun w s => let (a, s') := m w s in k a w s'.

Declare Scope js_scope.
Delimit Scope js_scope with js.
Notation "x <- m ;; k" := (bind m (fun x => k))
  (at level 100, m at next level, right associativity) : js_scope.
Notation "m ;; k" := (bind m (fun _ => k))
  (at level 100, right associativity) : js_scope.
Local Open Scope js_scope.

(** One more clock reading consumed. *)
Definition tick (s : Store) : Store :=
  {| usersDb := usersDb s; productsDb := productsDb s;
     ordersDb := ordersDb s; reviewsDb := reviewsDb s;
     paymentsDb := paymentsDb s; ticks := S (ticks s); draws := draws s |}.

(** One more random value consumed. *)
Definition draw (s : Store) : Store :=
  {| usersDb := usersDb s; productsDb := productsDb s;
     ordersDb := ordersDb s; reviewsDb := reviewsDb s;
     paymentsDb := paymentsDb s; ticks := ticks s; draws := S (draws s) |}.

(** [Date.now()] and [new Date()] *)
Definition Date_now : M Date := fun w s => (clock w (ticks s), tick s).

(** [Math.random()] *)
Definition Math_random : M number := fun w s => (random w (draws s), draw s).

(** [x.toString(36)] *)
Definition toString36 (x : number) : M string := fun w s => (radix36 w x, s).

(** A repository instance held by a service ([this.db], [this.ordersDb],
    ...): where its collection lives in the store. *)
Record Handle (N : Type) := {
  collection : Store -> Map (Entity N);
  set_collection : Map (Entity N) -> Store -> Store
}.

Definition users : Handle User.New :=
  {| collection := usersDb;
     set_collection := fun m s =>
       {| usersDb := m; productsDb := productsDb s; ordersDb := ordersDb s;
          reviewsDb := reviewsDb s; paymentsDb := paymentsDb s;
          ticks := ticks s; draws := draws s |} |}.

Definition products : Handle Product.New :=
  {| collection := productsDb;
     set_collection := fun m s =>
       {| usersDb := usersDb s; productsDb := m; ordersDb := ordersDb s;
          reviewsDb := reviewsDb s; paymentsDb := paymentsDb s;
          ticks := ticks s; draws := draws s |} |}.

Definition orders : Handle Order.New :=
  {| collection := ordersDb;
     set_collection := fun m s =>
       {| usersDb := usersDb s; productsDb := productsDb s; ordersDb := m;
          reviewsDb := reviewsDb s; paymentsDb := paymentsDb s;
          ticks := ticks s; draws := draws s |} |}.

Definition reviews : Handle Review.New :=
  {| collection := reviewsDb;
     set_collection := fun m s =>
       {| usersDb := usersDb s; productsDb := productsDb s;
          ordersDb := ordersDb s; reviewsDb := m; paymentsDb := paymentsDb s;
          ticks := ticks s; draws := draws s |} |}.

Definition payments : Handle PaymentTransaction.New :=
  {| collection := paymentsDb;
     set_collection := fun m s =>
       {| usersDb := usersDb s; productsDb := productsDb s;
          ordersDb := ordersDb s; reviewsDb := reviewsDb s; paymentsDb := m;
          ticks := ticks s; draws := draws s |} |}.

(* ================================================================== *)
(** ** [class InMemoryDatabase<T extends BaseEntity>] *)

Module InMemoryDatabase.
Section Methods.
Context {N : Type} `{Updatable N}.
Variable db : Handle N.

(** [`entity_${Date.now()}_${r.toString(36).substring(2, 9)}`] *)
Definition entity_id (now : Date) (r36 : string) : string :=
  "entity_" ++ decimal now ++ "_" ++ substring 2 7 r36.

Definition add (item : N) : M (Entity N) :=
  t <- Date_now ;;
  r <- Math_random ;;
  r36 <- toString36 r ;;
  let id' := entity_id t r36 in
  now <- Date_now ;;
  let newItem := mkEntity id' now now item in
  fun _ s =>
    (newItem, set_collection db (Map_set (collection db s) id' newItem) s).

Definition get (id' : string) : M (option (Entity N)) :=
  fun _ s => (Map_get (collection db s) id', s).

Definition getAll : M (list (Entity N)) :=
  fun _ s => (Map_values (collection db s), s).

Definition update (id' : string) (updates : Partial) : M (option (Entity N)) :=
  existing <- get id' ;;
  match existing with
  | None => ret None
  | Some existing =>
      now <- Date_now ;;
      let updatedItem :=
        mkEntity (id existing) (createdAt existing) now
                 (merge (fields existing) updates) in
      fun _ s =>
        (Some updatedItem,
         set_collection db (Map_set (collection db s) id' updatedItem) s)
  end.

Definition delete (id' : string) : M bool :=
  fun _ s =>
    let (result, m) := Map_delete (collection db s) id' in
    (result, set_collection db m s).

(** [findBy(key, value)], the property [key] given by its getter. *)
Definition findBy {V : Type} `{StrictEq V} (key : Entity N -> V) (value : V)
  : M (list (Entity N)) :=
  fun _ s =>
    (filter (fun item => strict_eq (key item) value)
            (Map_values (collection db s)), s).

End Methods.
End InMemoryDatabase.

(* ================================================================== *)
(** ** [class UserService] *)

Module UserService.
Import InMemoryDatabase.

(** [`hashed_${password}_${time}`] *)
Definition hashed (password : string) (time : Date) : string :=
  "hashed_" ++ password ++ "_" ++ decimal time.

(** [userData.passwordHash = `hashed_${userData.passwordHash}_${Date.now()}`]:
    a property the object lacks renders as [undefined]. *)
Definition hash_password (userData : User.New) (time : Date) : User.New :=
  {| User.username := User.username userData;
     User.email := User.email userData;
     User.passwordHash :=
       Some (hashed (match User.passwordHash userData with
                     | Some p => p
                     | None => "undefined"
                     end) time);
     User.role := User.role userData;
     User.address := User.address userData;
     User.phone := User.phone userData |}.

Definition username_of (u : User) : string := User.username (fields u).

Definition registerUser (userData : User.New) : M (ApiResponse User) :=
  existingUser <- findBy users username_of (User.username userData) ;;
  if (0 <? List.length existingUser)%nat then ret (fail UsernameExists)
  else
    t <- Date_now ;;
    let userData := hash_password userData t in
    newUser <- add users userData ;;
    ret (ok newUser).

Definition authenticateUser (credentials : UserCredentials)
  : M (ApiResponse User) :=
  users' <- findBy users username_of (cred_username credentials) ;;
  match users' with
  | [] => ret (fail UserNotFound)
  | user :: _ =>
      if match User.passwordHash (fields user) with
         | Some h =>
             String.eqb h (hashed (cred_passwordHash credentials)
                                  (createdAt user))
         | None => false
         end
      then ret (ok user)
      else ret (fail InvalidCredentials)
  end.

(** [{ ...safeUser }]: every property of [user] but [passwordHash]. *)
Definition safe (user : User) : User :=
  mkEntity (id user) (createdAt user) (updatedAt user)
           (User.omit_passwordHash (fields user)).

Definition getUserProfile (userId : string) : M (ApiResponse User) :=
  user <- get users userId ;;
  match user with
  | None => ret (fail UserNotFound)
  | Some user => ret (ok (safe user))
  end.

Definition updateUserProfile (userId : string) (updates : User.ProfileUpdates)
  : M (ApiResponse User) :=
  updatedUser <- update users userId (User.as_updates updates) ;;
  match updatedUser with
  | None => ret (fail UserNotFound)
  | Some updatedUser => ret (ok (safe updatedUser))
  end.

End UserService.

(* ================================================================== *)
(** ** [class ProductService] *)

Module ProductService.
Import InMemoryDatabase.

(** [x <= 0], which JavaScript decides as [x < 0 || x == 0]. *)
Definition addProduct (productData : Product.New) : M (ApiResponse Product) :=
  if PrimFloat.leb (Product.price productData) 0
     || PrimFloat.ltb (Product.stock productData) 0
  then ret (fail PriceAndStockMustBePositive)
  else
    newProduct <- add products productData ;;
    ret (ok newProduct).

Definition getProduct (productId : string) : M (ApiResponse Product) :=
  product <- get products productId ;;
  match product with
  | None => ret (fail ProductNotFound)
  | Some product => ret (ok product)
  end.

Definition getAllProducts (category : option ProductCategory)
  : M (ApiResponse (list Product)) :=
  products' <- getAll products ;;
  match category with
  | Some category =>
      ret (ok (filter
                 (fun p => ProductCategory_eqb (Product.category (fields p))
                                               category)
                 products'))
  | None => ret (ok products')
  end.

Definition updateProduct (productId : string) (updates : Product.Updates)
  : M (ApiResponse Product) :=
  updatedProduct <- update products productId updates ;;
  match updatedProduct with
  | None => ret (fail ProductNotFound)
  | Some updatedProduct => ret (ok updatedProduct)
  end.

Definition deleteProduct (productId adminId : string) : M (ApiResponse bool) :=
  product <- get products productId ;;
  match product with
  | None => ret (fail ProductNotFound)
  | Some _ =>
      deleted <- delete products productId ;;
      if deleted
      then ret (Build_ApiResponse true (Some true)
                                  (Some "Product deleted successfully.") None)
      else ret (fail FailedToDeleteProduct)
  end.

End ProductService.

(* ================================================================== *)
(** ** [class OrderService] *)

Module OrderService.
Import InMemoryDatabase.

(** The body of [for (const item of items)] in [createOrder], with the
    locals [orderItems] and [totalAmount] it updates. A [return] inside
    the loop leaves with [inl]; the loop running out leaves with [inr]. *)
Fixpoint createOrder_items (items : list LineItem)
    (orderItems : list OrderItem) (totalAmount : number)
  : M (ApiResponse Order + list OrderItem * number) :=
  match items with
  | [] => ret (inr (orderItems, totalAmount))
  | item :: rest =>
      product <- get products (item_productId item) ;;
      match product with
      | None => ret (inl (fail (ProductWithIdNotFound (item_productId item))))
      | Some product =>
          if PrimFloat.ltb (Product.stock (fields product)) (item_quantity item)
          then ret (inl (fail (NotEnoughStock
                                 (Product.name (fields product))
                                 (Product.stock (fields product))
                                 (item_quantity item))))
          else
            let orderItems :=
              orderItems ++
              [{| productId := id product;
                  productName := Product.name (fields product);
                  quantity := item_quantity item;
                  priceAtOrder := Product.price (fields product) |}] in
            let totalAmount :=
              (totalAmount
               + Product.price (fields product) * item_quantity item)%float in
            update products (id product)
              (Product.only_stock
                 (Product.stock (fields product) - item_quantity item)%float) ;;
            createOrder_items rest orderItems totalAmount
      end
  end.

Definition createOrder (userId : string) (items : list LineItem)
    (shippingAddress : Address) (paymentMethod : PaymentMethod)
  : M (ApiResponse Order) :=
  user <- get users userId ;;
  match user with
  | None => ret (fail UserNotFound)
  | Some _ =>
      looped <- createOrder_items items [] 0%float ;;
      match looped with
      | inl response => ret response
      | inr (orderItems, totalAmount) =>
          let newOrder :=
            {| Order.userId := userId;
               Order.items := orderItems;
               Order.totalAmount := totalAmount;
               Order.status := Pending;
               Order.shippingAddress := shippingAddress;
               Order.paymentMethod := paymentMethod;
               Order.paymentStatus := Unpaid;
               Order.shippedDate := None;
               Order.deliveredDate := None |} in
          createdOrder <- add orders newOrder ;;
          ret (ok createdOrder)
      end
  end.

Definition getOrder (orderId : string) : M (ApiResponse Order) :=
  order <- get orders orderId ;;
  match order with
  | None => ret (fail OrderNotFound)
  | Some order => ret (ok order)
  end.

Definition userId_of (o : Order) : string := Order.userId (fields o).

Definition getUserOrders (userId : string) : M (ApiResponse (list Order)) :=
  orders' <- findBy orders userId_of userId ;;
  ret (ok orders').

(** [for (const item of updatedOrder.items)] in the [Cancelled] branch. *)
Fixpoint restore_stock (items : list OrderItem) : M unit :=
  match items with
  | [] => ret tt
  | item :: rest =>
      product <- get products (productId item) ;;
      match product with
      | Some product =>
          update products (id product)
            (Product.only_stock
               (Product.stock (fields product) + quantity item)%float) ;;
          restore_stock rest
      | None => restore_stock rest
      end
  end.

Definition is_none {A : Type} (o : option A) : bool :=
  match o with None => true | Some _ => false end.

Definition updateOrderStatus (orderId : string) (newStatus : OrderStatus)
  : M (ApiResponse Order) :=
  updatedOrder <- update orders orderId (Order.only_status newStatus) ;;
  match updatedOrder with
  | None => ret (fail OrderNotFound)
  | Some updatedOrder =>
      (if OrderStatus_eqb newStatus Shipped
          && is_none (Order.shippedDate (fields updatedOrder))
       then
         d <- Date_now ;;
         update orders orderId (Order.only_shippedDate d) ;; ret tt
       else if OrderStatus_eqb newStatus Delivered
               && is_none (Order.deliveredDate (fields updatedOrder))
       then
         d <- Date_now ;;
         update orders orderId (Order.only_deliveredDate d) ;; ret tt
       else if OrderStatus_eqb newStatus Cancelled
       then restore_stock (Order.items (fields updatedOrder))
       else ret tt) ;;
      latest <- get orders orderId ;;
      ret (Build_ApiResponse true latest None None)
  end.

End OrderService.

(* ================================================================== *)
(** ** [class PaymentService] *)

Module PaymentService.
Import InMemoryDatabase.

(** [`txn_${Date.now()}_${r.toString(36).substring(2, 11)}`] *)
Definition txn_id (now : Date) (r36 : string) : string :=
  "txn_" ++ decimal now ++ "_" ++ substring 2 9 r36.

(** [!order || order.userId !== userId || order.totalAmount !== amount
     || order.paymentStatus === 'Paid'] *)
Definition rejected (order : option Order) (userId : string) (amount : number)
  : bool :=
  match order with
  | None => true
  | Some order =>
      negb (String.eqb (Order.userId (fields order)) userId)
      || negb (PrimFloat.eqb (Order.totalAmount (fields order)) amount)
      || PaymentStatus_eqb (Order.paymentStatus (fields order)) Paid
  end.

#[warnings="-inexact-float"]
Definition processPayment (orderId userId : string) (amount : number)
    (method : PaymentMethod) : M (ApiResponse PaymentTransaction) :=
  order <- get orders orderId ;;
  if rejected order userId amount
  then ret (fail InvalidOrderOrAlreadyPaid)
  else
    t <- Date_now ;;
    r <- Math_random ;;
    r36 <- toString36 r ;;
    let transactionId := txn_id t r36 in
    r' <- Math_random ;;
    let status := if PrimFloat.ltb 0.1 r' then Success else Failed in
    let newPayment :=
      {| PaymentTransaction.orderId := orderId;
         PaymentTransaction.userId := userId;
         PaymentTransaction.amount := amount;
         PaymentTransaction.method := method;
         PaymentTransaction.transactionId := transactionId;
         PaymentTransaction.status := status |} in
    createdPayment <- add payments newPayment ;;
    if TransactionStatus_eqb status Success
    then
      update orders orderId Order.paid_processing ;;
      ret (Build_ApiResponse true (Some createdPayment)
                             (Some "Payment successful!") None)
    else
      ret (Build_ApiResponse false (Some createdPayment) None
                             (Some PaymentFailed)).

Definition userId_of (t : PaymentTransaction) : string :=
  PaymentTransaction.userId (fields t).

Definition getPaymentHistory (userId : string)
  : M (ApiResponse (list PaymentTransaction)) :=
  payments' <- findBy payments userId_of userId ;;
  ret (ok payments').

End PaymentService.

(* ================================================================== *)
(** ** [class ReviewService] *)

Module ReviewService.
Import InMemoryDatabase.

Definition productId_of (r : Review) : string := Review.productId (fields r).
Definition userId_of (r : Review) : string := Review.userId (fields r).

(** [productReviews.reduce((sum, r) => sum + r.rating, 0)] *)
Definition totalRating (productReviews : list Review) : number :=
  fold_left (fun sum r => (sum + Review.rating (fields r))%float)
            productReviews 0%float.

Definition submitReview (reviewData : Review.New) : M (ApiResponse Review) :=
  if PrimFloat.ltb (Review.rating reviewData) 1
     || PrimFloat.ltb 5 (Review.rating reviewData)
  then ret (fail RatingOutOfRange)
  else
    product <- get products (Review.productId reviewData) ;;
    match product with
    | None => ret (fail ProductNotFoundForReview)
    | Some product =>
        newReview <- add reviews reviewData ;;
        productReviews <- findBy reviews productId_of (id product) ;;
        let newAverageRating :=
          (totalRating productReviews
           / Number_of_nat (List.length productReviews))%float in
        update products (id product)
          (Product.only_rating
             (parseFloat (toFixed1 newAverageRating))
             (Number_of_nat (List.length productReviews))) ;;
        ret (ok newReview)
    end.

Definition getProductReviews (productId : string)
  : M (ApiResponse (list Review)) :=
  reviews' <- findBy reviews productId_of productId ;;
  ret (ok reviews').

Definition getUserReviews (userId : string) : M (ApiResponse (list Review)) :=
  reviews' <- findBy reviews userId_of userId ;;
  ret (ok reviews').

End ReviewService.

(* ================================================================== *)
(** ** Observations and specification-side definitions *)

Definition product_at (s : Store) (productId : string) : option Product :=
  Map_get (productsDb s) productId.

Definition stock_at (s : Store) (productId : string) : option number :=
  option_map (fun p => Product.stock (fields p)) (product_at s productId).

Definition order_at (s : Store) (orderId : string) : option Order :=
  Map_get (ordersDb s) orderId.

(** Every record of a collection is stored under its own [id]. *)
Definition keyed {N : Type} (m : Map (Entity N)) : Prop :=
  Forall (fun kv => id (snd kv) = fst kv) m.

(** The stock a product is left with once each line item that names it has
    taken its quantity, in the order of the request. *)
Definition stock_after (items : list LineItem) (productId : string)
    (stock : number) : number :=
  fold_left
    (fun st item =>
       if String.eqb (item_productId item) productId
       then (st - item_quantity item)%float else st)
    items stock.

(** The order item a line item is captured as, from the catalog of [s]. *)
Definition captured (s : Store) (item : LineItem) (oi : OrderItem) : Prop :=
  exists p,
    product_at s (item_productId item) = Some p /\
    oi = {| productId := item_productId item;
            productName := Product.name (fields p);
            quantity := item_quantity item;
            priceAtOrder := Product.price (fields p) |}.

(** The sum of the captured subtotals, accumulated from [0] in order. *)
Definition subtotals (acc : number) (ois : list OrderItem) : number :=
  fold_left (fun acc oi => (acc + priceAtOrder oi * quantity oi)%float) ois acc.







(** The ratings as exact rationals, their arithmetic mean, and a rational
    rounded half up to tenths. *)
Module Exact.
Import QArith_base Qround.
Local Open Scope Q_scope.

Definition value (x : number) : Q :=
  match Prim2SF x with
  | S754_finite neg m e =>
      (if neg then - (1) else 1) * inject_Z (Z.pos m) * Qpower 2 e
  | _ => 0
  end.



End Exact.

(** The users of a collection with a given username. *)
Definition users_named (s : Store) (username : string) : list User :=
  filter (fun u => String.eqb (User.username (fields u)) username)
         (Map_values (usersDb s)).

(** The conditions under which [processPayment] turns a request down:
    the order is absent, is another user's, has another total, or is
    already paid. *)
Definition turned_down (s : Store) (orderId userId : string) (amount : number)
  : Prop :=
  match order_at s orderId with
  | None => True
  | Some order =>
      Order.userId (fields order) <> userId \/
      PrimFloat.eqb (Order.totalAmount (fields order)) amount = false \/
      Order.paymentStatus (fields order) = Paid
  end.

(** Two stores list every product with the same name and price. *)
Definition same_catalog (s s' : Store) : Prop :=
  forall pid,
    option_map (fun p => (Product.name (fields p), Product.price (fields p)))
               (product_at s' pid) =
    option_map (fun p => (Product.name (fields p), Product.price (fields p)))
               (product_at s pid).

(** Every line item finds its product, with stock for its quantity left
    by the line items before it. *)
Definition all_in_stock (s : Store) (items : list LineItem) : Prop :=
  forall before item after,
    items = before ++ item :: after ->
    exists st,
      stock_at s (item_productId item) = Some st /\
      PrimFloat.ltb (stock_after before (item_productId item) st)
                    (item_quantity item) = false.

(** A handle reads back the collection it stored, and consuming a clock
    reading or a random value does not touch its collection. *)
Class LawfulHandle {N : Type} (db : Handle N) : Prop := {
  collection_set : forall m s, collection db (set_collection db m s) = m;
  collection_tick : forall s, collection db (tick s) = collection db s;
  collection_draw : forall s, collection db (draw s) = collection db s
}.

(** No key occurs twice, as in any [Map]. *)
Definition unique_keys {T : Type} (m : Map T) : Prop := NoDup (map fst m).

(** A collection as the repository keeps it: a map whose records sit
    under their own ids. *)
Definition well_stored {N : Type} (m : Map (Entity N)) : Prop :=
  unique_keys m /\ keyed m.

Definition store_ok (s : Store) : Prop :=
  well_stored (usersDb s) /\ well_stored (productsDb s) /\
  well_stored (ordersDb s) /\ well_stored (reviewsDb s) /\
  well_stored (paymentsDb s).

(** A computation keeps a property of the store. *)
Definition preserves {A : Type} (P : Store -> Prop) (m : M A) : Prop :=
  forall w s, P s -> P (snd (m w s)).

(** The stock a product holds once each order item that names it has
    given its quantity back, in the order of the items. *)
Definition stock_restored (items : list OrderItem) (pid : string)
    (stock : number) : number :=
  fold_left
    (fun st item =>
       if String.eqb (productId item) pid
       then (st + quantity item)%float else st)
    items stock.

(** What [updateOrderStatus] may change of an order: its [status],
    [shippedDate], [deliveredDate] and [updatedAt]. *)
Definition same_order_content (o o' : Order) : Prop :=
  id o' = id o /\ createdAt o' = createdAt o /\
  Order.userId (fields o') = Order.userId (fields o) /\
  Order.items (fields o') = Order.items (fields o) /\
  Order.totalAmount (fields o') = Order.totalAmount (fields o) /\
  Order.shippingAddress (fields o') = Order.shippingAddress (fields o) /\
  Order.paymentMethod (fields o') = Order.paymentMethod (fields o) /\
  Order.paymentStatus (fields o') = Order.paymentStatus (fields o).

(** Two stores differ at most in the products repository and the clock. *)
Definition same_outside_products (s0 s : Store) : Prop :=
  usersDb s = usersDb s0 /\ ordersDb s = ordersDb s0 /\
  reviewsDb s = reviewsDb s0 /\ paymentsDb s = paymentsDb s0 /\
  draws s = draws s0.

(* ================================================================== *)
(** ** Sample executions *)

(** A clock that advances one millisecond a reading and a generator that
    always returns [0.5], which base 36 writes ["0.i"]. *)
Definition demo_world : World :=
  {| clock := fun n => (1700000000000 + Z.of_nat n)%Z;
     random := fun _ => 0.5%float;
     radix36 := fun _ => "0.i" |}.

(** The same generator under a clock that stands still. *)
Definition frozen_world : World :=
  {| clock := fun _ => 1700000000000%Z;
     random := fun _ => 0.5%float;
     radix36 := fun _ => "0.i" |}.

(** An advancing clock with a generator that always returns [0], which
    base 36 writes ["0"]: the payment gateway declines. *)
Definition declining_world : World :=
  {| clock := fun n => (1700000000000 + Z.of_nat n)%Z;
     random := fun _ => 0%float;
     radix36 := fun _ => "0" |}.

Definition demo_address : Address :=
  {| street := "123 Main St"; city := "Anytown"; state := "CA";
     zipCode := "90210"; country := "USA" |}.

Definition demo_user : User.New :=
  {| User.username := "testuser";
     User.email := "test@example.com";
     User.passwordHash := Some "password123";
     User.role := Customer;
     User.address := Some demo_address;
     User.phone := None |}.

Definition demo_product (name : string) (price stock : number) : Product.New :=
  {| Product.name := name;
     Product.description := "";
     Product.price := price;
     Product.category := Electronics;
     Product.stock := stock;
     Product.imageUrl := "";
     Product.sellerId := "seller_admin_1";
     Product.rating := None;
     Product.reviewsCount := None |}.

Definition demo_review (productId : string) (rating : number) : Review.New :=
  {| Review.productId := productId;
     Review.userId := "entity_1700000000001_i";
     Review.rating := rating;
     Review.comment := "" |}.

Definition id_of {N : Type} (r : ApiResponse (Entity N)) : string :=
  match data r with Some e => id e | None => "" end.

(** One registered user and two products, [A] with stock 5 at price 10 and
    [B] with stock 1 at price 20; returns the three ids. *)
Definition open_shop : M (string * string * string) :=
  u <- UserService.registerUser demo_user ;;
  a <- ProductService.addProduct (demo_product "A" 10%float 5%float) ;;
  b <- ProductService.addProduct (demo_product "B" 20%float 1%float) ;;
  ret (id_of u, id_of a, id_of b).

Definition shop : Store := snd (open_shop demo_world empty_store).
Definition shop_user : string := "entity_1700000000001_i".
Definition shop_A : string := "entity_1700000000003_i".
Definition shop_B : string := "entity_1700000000005_i".

(** The shop after the user has ordered two units of [A]; returns the
    order's id. *)
Definition order_two_A : M string :=
  o <- OrderService.createOrder shop_user
         [{| item_productId := shop_A; item_quantity := 2%float |}]
         demo_address CreditCard ;;
  ret (id_of o).

Definition shop_with_order : Store := snd (order_two_A demo_world shop).
Definition shop_order : string := "entity_1700000000008_i".




(* ================================================================== *)
(** ** Lemmas on [Map] *)

Section MapFacts.
Variable T : Type.
Implicit Types (m : Map T) (k : string) (v : T).

Lemma Map_get_set_same m k v : Map_get (Map_set m k v) k = Some v.
Proof.
  induction m as [|[k' v'] m IH]; simpl.
  - now rewrite String.eqb_refl.
  - destruct (String.eqb k' k) eqn:E; simpl; rewrite E; auto.
Qed.

Lemma Map_get_set_other m k k' v :
  k <> k' -> Map_get (Map_set m k v) k' = Map_get m k'.
Proof.
  intros Hk. induction m as [|[k0 v0] m IH]; simpl.
  - destruct (String.eqb_spec k k'); [contradiction | reflexivity].
  - destruct (String.eqb_spec k0 k) as [->|]; simpl.
    + destruct (String.eqb_spec k k'); [contradiction | reflexivity].
    + now rewrite IH.
Qed.

Lemma Map_get_set m k k' v :
  Map_get (Map_set m k v) k' =
  if String.eqb k k' then Some v else Map_get m k'.
Proof.
  destruct (String.eqb_spec k k') as [<-|Hk].
  - apply Map_get_set_same.
  - now apply Map_get_set_other.
Qed.

Lemma Map_get_In m k v : Map_get m k = Some v -> In (k, v) m.
Proof.
  induction m as [|[k' v'] m IH]; simpl; [discriminate|].
  destruct (String.eqb_spec k' k) as [->|]; intros E.
  - injection E as ->. now left.
  - right. auto.
Qed.

(** Setting a key of a collection in which nothing satisfies [f] to a
    value that does leaves exactly that value satisfying [f]. *)
Lemma filter_values_set_fresh (f : T -> bool) m k v :
  filter f (Map_values m) = [] -> f v = true ->
  filter f (Map_values (Map_set m k v)) = [v].
Proof.
  unfold Map_values. intros Hnil Hv.
  induction m as [|[k' v'] m IH]; simpl in *.
  - now rewrite Hv.
  - destruct (f v') eqn:Ev'; [discriminate|].
    destruct (String.eqb k' k); simpl.
    + now rewrite Hv, Hnil.
    + rewrite Ev'. auto.
Qed.

End MapFacts.

Section KeyedFacts.
Variable N : Type.
Implicit Types (m : Map (Entity N)) (e : Entity N).

Lemma keyed_get m k e : keyed m -> Map_get m k = Some e -> id e = k.
Proof.
  intros Hm Hg. apply Map_get_In in Hg.
  unfold keyed in Hm. rewrite Forall_forall in Hm.
  exact (Hm _ Hg).
Qed.

Lemma keyed_set m k e : keyed m -> id e = k -> keyed (Map_set m k e).
Proof.
  unfold keyed. intros Hm He.
  induction m as [|[k' v'] m IH]; simpl.
  - constructor; auto.
  - inversion Hm as [|? ? Hhd Htl]; subst.
    destruct (String.eqb_spec k' (id e)) as [->|].
    + constructor; auto.
    + constructor; auto.
Qed.

Lemma keyed_delete m k : keyed m -> keyed (snd (Map_delete m k)).
Proof.
  unfold keyed. induction m as [|[k' v'] m IH]; simpl; intros Hm.
  - constructor.
  - inversion Hm as [|? ? Hhd Htl]; subst.
    destruct (String.eqb k' k); simpl; auto.
    destruct (Map_delete m k) as [b rest] eqn:E. simpl in *.
    constructor; auto.
Qed.

End KeyedFacts.

(* ================================================================== *)
(** ** Lemmas on generated identifiers *)

Fixpoint underscore_free (s : string) : bool :=
  match s with
  | EmptyString => true
  | String c s' => negb (Ascii.eqb c "_") && underscore_free s'
  end.

Lemma uint_underscore_free d :
  underscore_free (NilEmpty.string_of_uint d) = true.
Proof. induction d; simpl; auto. Qed.

Lemma decimal_underscore_free n : underscore_free (decimal n) = true.
Proof.
  unfold decimal, NilZero.string_of_int, NilZero.string_of_uint.
  destruct (Z.to_int n) as [d|d]; destruct d; simpl;
    auto using uint_underscore_free.
Qed.

Lemma decimal_inj n n' : decimal n = decimal n' -> n = n'.
Proof.
  unfold decimal. intros E.
  assert (Hnil : forall z, Z.to_int z <> Decimal.Pos Decimal.Nil
                           /\ Z.to_int z <> Decimal.Neg Decimal.Nil).
  { intros [|p|p]; simpl; split; try discriminate;
      intros [= Hp]; exact (DecimalPos.Unsigned.to_uint_nonnil p Hp). }
  apply DecimalZ.to_int_inj.
  assert (Some (Z.to_int n) = Some (Z.to_int n')) as [= ->]; [|reflexivity].
  rewrite <- (NilZero.isi (Z.to_int n)), <- (NilZero.isi (Z.to_int n'));
    try apply Hnil.
  now rewrite E.
Qed.

(** Two strings that agree after an underscore-free part and an
    underscore agree part by part. *)
Lemma split_at_underscore a b x y :
  underscore_free a = true -> underscore_free b = true ->
  (a ++ String "_" x)%string = (b ++ String "_" y)%string ->
  a = b /\ x = y.
Proof.
  revert b. induction a as [|c a IH]; intros [|c' b]; simpl; intros Ha Hb E.
  - injection E as ->. auto.
  - injection E as <- _. discriminate.
  - injection E as -> _. discriminate.
  - injection E as <- E.
    apply andb_true_iff in Ha as [_ Ha]. apply andb_true_iff in Hb as [_ Hb].
    destruct (IH b Ha Hb E) as [-> ->]. auto.
Qed.

Lemma entity_id_inj t r t' r' :
  InMemoryDatabase.entity_id t r = InMemoryDatabase.entity_id t' r' ->
  t = t' /\ substring 2 7 r = substring 2 7 r'.
Proof.
  unfold InMemoryDatabase.entity_id. intros E.
  simpl in E. injection E as E.
  apply split_at_underscore in E; auto using decimal_underscore_free.
  destruct E as [E ->]. apply decimal_inj in E. auto.
Qed.

(* ================================================================== *)
(** ** The repository *)

Module RepositoryFacts.
Import InMemoryDatabase.

Section Generic.
Context {N : Type} `{Updatable N}.
Variable db : Handle N.

Lemma add_id (item : N) w s :
  id (fst (add db item w s)) =
  entity_id (clock w (ticks s)) (radix36 w (random w (draws s))).
Proof. reflexivity. Qed.

Lemma add_fields (item : N) w s : fields (fst (add db item w s)) = item.
Proof. reflexivity. Qed.

End Generic.

(** C9, as the code has it: the ids two [add] calls return are equal
    exactly when the calls read the same millisecond from the clock and
    drew random values with the same seven base-36 digits; whenever either
    differs, the ids are distinct. *)
Theorem add_ids_equal_iff (N : Type) (db : Handle N) (w : World)
    (item1 item2 : N) (s1 s2 : Store) :
  id (fst (add db item1 w s1)) = id (fst (add db item2 w s2)) <->
  clock w (ticks s1) = clock w (ticks s2) /\
  substring 2 7 (radix36 w (random w (draws s1))) =
  substring 2 7 (radix36 w (random w (draws s2))).
Proof.
  rewrite !add_id. split.
  - apply entity_id_inj.
  - unfold entity_id. intros [-> ->]. reflexivity.
Qed.

(** C9 fails as stated: under a clock that has not advanced and a
    generator that repeats a value, two successive [add] calls on one
    repository return the same id, and the second record replaces the
    first. *)
Lemma add_twice_same_id :
  let (a, s1) := add products (demo_product "A" 10 5) frozen_world empty_store in
  let (b, s2) := add products (demo_product "B" 20 1) frozen_world s1 in
  id a = id b /\ Map_values (productsDb s2) = [b].
Proof. vm_compute. split; reflexivity. Qed.

End RepositoryFacts.

(* ================================================================== *)
(** ** The user directory *)

Module UserFacts.
Import InMemoryDatabase UserService.

(** C8: for a stored user, [getUserProfile] and [updateUserProfile] both
    succeed, and the user they return carries no [passwordHash]. *)
Theorem profile_without_passwordHash (w : World) (s : Store)
    (userId : string) (u : User) :
  Map_get (usersDb s) userId = Some u ->
  (exists safeUser,
      fst (getUserProfile userId w s) = ok safeUser /\
      User.passwordHash (fields safeUser) = None) /\
  (forall updates, exists safeUser,
      fst (updateUserProfile userId updates w s) = ok safeUser /\
      User.passwordHash (fields safeUser) = None).
Proof.
  intros Hu. split.
  - exists (safe u). unfold getUserProfile, bind, get, ret. simpl.
    rewrite Hu. auto.
  - intros updates.
    unfold updateUserProfile, update, bind, get, ret, Date_now. simpl.
    rewrite Hu. simpl. eexists. split; reflexivity.
Qed.

Lemma profile_without_passwordHash_witness :
  exists safeUser,
    fst (getUserProfile shop_user demo_world shop) = ok safeUser /\
    User.passwordHash (fields safeUser) = None.
Proof.
  refine (proj1 (profile_without_passwordHash demo_world shop shop_user
                   (u := mkEntity shop_user 1700000000002 1700000000002
                           (hash_password demo_user 1700000000000)) _)).
  vm_compute. reflexivity.
Defined.

(** What the call stores and answers when the username is free. *)
Lemma registerUser_free (userData : User.New) w s :
  users_named s (User.username userData) = [] ->
  registerUser userData w s =
  let newUser :=
    mkEntity
      (entity_id (clock w (S (ticks s))) (radix36 w (random w (draws s))))
      (clock w (S (S (ticks s)))) (clock w (S (S (ticks s))))
      (hash_password userData (clock w (ticks s))) in
  (ok newUser,
   set_collection users (Map_set (usersDb s) (id newUser) newUser)
                  (tick (draw (tick (tick s))))).
Proof.
  intros Hfree.
  unfold registerUser, bind, findBy, username_of, strict_eq, StrictEq_string.
  simpl. unfold users_named in Hfree. rewrite Hfree. reflexivity.
Qed.

Lemma registerUser_taken (userData : User.New) w s :
  users_named s (User.username userData) <> [] ->
  registerUser userData w s = (fail UsernameExists, s).
Proof.
  intros Htaken.
  unfold registerUser, bind, findBy, username_of, strict_eq, StrictEq_string.
  simpl. unfold users_named in Htaken.
  destruct (filter _ _); [contradiction | reflexivity].
Qed.

(** C7: once [registerUser] has succeeded for a username, registering that
    username again fails with 'Username already exists.', changes nothing,
    and the repository holds exactly one user of that name. *)
Theorem register_same_username_twice (w : World) (s s1 : Store)
    (first second : User.New) (r1 : ApiResponse User) :
  registerUser first w s = (r1, s1) ->
  success r1 = true ->
  User.username second = User.username first ->
  registerUser second w s1 = (fail UsernameExists, s1) /\
  List.length (users_named s1 (User.username first)) = 1%nat.
Proof.
  intros Hrun Hok Hname.
  destruct (users_named s (User.username first)) eqn:Hfree.
  - rewrite registerUser_free in Hrun by assumption.
    simpl in Hrun. injection Hrun as <- <-.
    match goal with
    | |- context [Map_set (usersDb s) ?k ?v] =>
        assert (Hone : users_named
                         (set_collection users (Map_set (usersDb s) k v)
                                         (tick (draw (tick (tick s)))))
                         (User.username first) = [v])
    end.
    { unfold users_named. simpl.
      apply filter_values_set_fresh; [exact Hfree|].
      simpl. apply String.eqb_refl. }
    split.
    + apply registerUser_taken. rewrite Hname.
      simpl in Hone |- *. rewrite Hone. discriminate.
    + simpl in Hone |- *. rewrite Hone. reflexivity.
  - rewrite registerUser_taken in Hrun by (rewrite Hfree; discriminate).
    injection Hrun as <- <-. discriminate.
Qed.

Lemma register_same_username_twice_witness :
  let s1 := snd (registerUser demo_user demo_world empty_store) in
  registerUser demo_user demo_world s1 = (fail UsernameExists, s1) /\
  List.length (users_named s1 "testuser") = 1%nat.
Proof.
  refine (register_same_username_twice demo_world empty_store
            demo_user demo_user
            (r1 := fst (registerUser demo_user demo_world empty_store))
            _ _ _);
    vm_compute; reflexivity.
Defined.

End UserFacts.

(* ================================================================== *)
(** ** The payment processor *)

Module PaymentFacts.
Import InMemoryDatabase PaymentService.

Lemma rejected_iff s orderId userId amount :
  rejected (order_at s orderId) userId amount = true <->
  turned_down s orderId userId amount.
Proof.
  unfold rejected, turned_down.
  destruct (order_at s orderId) as [o|]; [|tauto].
  rewrite !orb_true_iff, !negb_true_iff.
  destruct (String.eqb_spec (Order.userId (fields o)) userId);
    destruct (Order.paymentStatus (fields o)); simpl;
    intuition congruence.
Qed.

(** C5: a request that is turned down is answered with the failure
    'Invalid order or order already paid.' and leaves every repository as
    it was; in particular the order, when there is one, keeps its record
    and so its [paymentStatus]. *)
Theorem rejected_payment_changes_nothing (w : World) (s : Store)
    (orderId userId : string) (amount : number) (method : PaymentMethod) :
  turned_down s orderId userId amount ->
  processPayment orderId userId amount method w s =
  (fail InvalidOrderOrAlreadyPaid, s).
Proof.
  intros Hdown. apply rejected_iff in Hdown.
  unfold processPayment, bind, get. simpl.
  unfold order_at in Hdown. rewrite Hdown. reflexivity.
Qed.

Lemma rejected_payment_changes_nothing_witness :
  processPayment shop_order shop_user 19 CreditCard demo_world shop_with_order
  = (fail InvalidOrderOrAlreadyPaid, shop_with_order) /\
  option_map (fun o => Order.paymentStatus (fields o))
             (order_at shop_with_order shop_order) = Some Unpaid.
Proof.
  split.
  - apply rejected_payment_changes_nothing.
    vm_compute. right. left. reflexivity.
  - vm_compute. reflexivity.
Defined.

(** C10: when the request is acceptable and the gateway decides on
    failure (the second random value of the call is not above 0.1), the
    call answers [success: false] with 'Payment failed.' and the recorded
    transaction, whose status is [Failed] and which the payments
    repository now holds; the orders repository is exactly as before. *)
#[warnings="-inexact-float"]
Theorem failed_payment_leaves_order (w : World) (s : Store)
    (orderId userId : string) (amount : number) (method : PaymentMethod)
    (order : Order) :
  order_at s orderId = Some order ->
  Order.userId (fields order) = userId ->
  PrimFloat.eqb (Order.totalAmount (fields order)) amount = true ->
  Order.paymentStatus (fields order) = Unpaid ->
  PrimFloat.ltb 0.1 (random w (S (draws s))) = false ->
  exists txn s',
    processPayment orderId userId amount method w s =
    (Build_ApiResponse false (Some txn) None (Some PaymentFailed), s') /\
    PaymentTransaction.status (fields txn) = Failed /\
    PaymentTransaction.orderId (fields txn) = orderId /\
    Map_get (paymentsDb s') (id txn) = Some txn /\
    ordersDb s' = ordersDb s /\
    order_at s' orderId = Some order.
Proof.
  intros Horder Huser Hamount Hunpaid Hgate.
  unfold processPayment, bind, get. simpl.
  unfold order_at in Horder. rewrite Horder.
  unfold rejected. rewrite Huser, String.eqb_refl, Hamount, Hunpaid. simpl.
  unfold add, bind, Date_now, Math_random, toString36. simpl.
  rewrite Hgate. simpl.
  eexists. eexists. split; [reflexivity|]. simpl.
  repeat split; auto.
  - apply Map_get_set_same.
Qed.

Lemma failed_payment_leaves_order_witness :
  exists txn s',
    processPayment shop_order shop_user 20 CreditCard
                   declining_world shop_with_order =
    (Build_ApiResponse false (Some txn) None (Some PaymentFailed), s') /\
    PaymentTransaction.status (fields txn) = Failed /\
    ordersDb s' = ordersDb shop_with_order.
Proof.
  edestruct (@failed_payment_leaves_order declining_world shop_with_order
               shop_order shop_user 20%float CreditCard)
    as (txn & s' & Hrun & Hfailed & _ & _ & Horders & _);
    [vm_compute; reflexivity ..|].
  exists txn, s'. auto.
Defined.

End PaymentFacts.

(* ================================================================== *)
(** ** The order workflow *)

Module OrderFacts.
Import InMemoryDatabase OrderService.

Lemma update_products_found w s k updates p :
  product_at s k = Some p ->
  update products k updates w s =
  let p' := mkEntity (id p) (createdAt p) (clock w (ticks s))
                     (Product.spread_updates (fields p) updates) in
  (Some p', set_collection products (Map_set (productsDb s) k p') (tick s)).
Proof.
  intros Hp. unfold update, bind, get, Date_now. simpl.
  unfold product_at in Hp. rewrite Hp. reflexivity.
Qed.

(** The catalog after the stock of [p], stored under [k], is set. *)
Lemma product_at_set_stock s k p now st pid :
  product_at
    (set_collection products
       (Map_set (productsDb s) k
          (mkEntity (id p) (createdAt p) now
             (Product.spread_updates (fields p) (Product.only_stock st))))
       (tick s)) pid =
  if String.eqb k pid
  then Some (mkEntity (id p) (createdAt p) now
               (Product.spread_updates (fields p) (Product.only_stock st)))
  else product_at s pid.
Proof. unfold product_at. simpl. apply Map_get_set. Qed.

Lemma captured_same_catalog s s' item oi :
  same_catalog s s' -> captured s' item oi -> captured s item oi.
Proof.
  intros Hcat (q & Hq & ->). specialize (Hcat (item_productId item)).
  rewrite Hq in Hcat. simpl in Hcat.
  destruct (product_at s (item_productId item)) as [p|] eqn:Hp;
    [|discriminate].
  injection Hcat as -> ->. exists p. auto.
Qed.

Lemma subtotals_app acc xs ys :
  subtotals acc (xs ++ ys) = subtotals (subtotals acc xs) ys.
Proof. apply fold_left_app. Qed.

(** The loop of [createOrder], when it runs to its end. *)
Lemma createOrder_items_done items : forall orderItems totalAmount w s ois total s',
  keyed (productsDb s) ->
  createOrder_items items orderItems totalAmount w s = (inr (ois, total), s') ->
  keyed (productsDb s') /\
  same_catalog s s' /\
  ordersDb s' = ordersDb s /\
  (exists caps,
      Forall2 (captured s) items caps /\
      ois = orderItems ++ caps /\
      total = subtotals totalAmount caps) /\
  (forall pid,
      stock_at s' pid = option_map (stock_after items pid) (stock_at s pid)).
Proof.
  induction items as [|item rest IH];
    intros orderItems totalAmount w s ois total s' Hkeyed Hrun.
  - simpl in Hrun. injection Hrun as <- <- <-.
    repeat split; auto.
    + exists []. rewrite app_nil_r. auto.
    + intros pid. simpl. now destruct (stock_at s pid).
  - simpl in Hrun. unfold bind at 1, get at 1 in Hrun. simpl in Hrun.
    destruct (Map_get (productsDb s) (item_productId item)) as [p|] eqn:Hp;
      [|discriminate].
    destruct (PrimFloat.ltb _ _) eqn:Hstock; [discriminate|].
    assert (Hid : id p = item_productId item) by (eapply keyed_get; eauto).
    unfold bind at 1 in Hrun.
    rewrite (@update_products_found w s (id p) _ p) in Hrun
      by (rewrite Hid; exact Hp).
    cbv zeta in Hrun.
    set (p' := mkEntity _ _ _ _) in Hrun.
    set (s1 := set_collection products _ _) in Hrun.
    assert (Hat : forall pid, product_at s1 pid =
                              if String.eqb (id p) pid then Some p'
                              else product_at s pid)
      by (intros pid; apply product_at_set_stock).
    assert (Hcat1 : same_catalog s s1).
    { intros pid. rewrite Hat.
      destruct (String.eqb_spec (id p) pid) as [<-|]; [|reflexivity].
      unfold product_at. rewrite Hid, Hp. reflexivity. }
    apply IH in Hrun; [|apply keyed_set; [exact Hkeyed | reflexivity]].
    destruct Hrun as (Hk' & Hcat & Hord & (caps & Hcaps & -> & ->) & Hstk).
    split; [exact Hk'|].
    split; [intros pid; now rewrite Hcat, Hcat1|].
    split; [exact Hord|].
    split.
    + exists ({| productId := id p;
                 productName := Product.name (fields p);
                 quantity := item_quantity item;
                 priceAtOrder := Product.price (fields p) |} :: caps).
      split; [constructor|split].
      * exists p. split; [exact Hp|]. rewrite Hid. reflexivity.
      * eapply Forall2_impl; [|exact Hcaps].
        intros a b. now apply captured_same_catalog.
      * rewrite <- app_assoc. reflexivity.
      * reflexivity.
    + intros pid. rewrite Hstk. unfold stock_at. rewrite Hat, Hid.
      destruct (String.eqb (item_productId item) pid) eqn:E.
      * apply String.eqb_eq in E. subst pid.
        unfold product_at. rewrite Hp. simpl.
        rewrite String.eqb_refl. reflexivity.
      * destruct (product_at s pid); simpl; [rewrite E|]; reflexivity.
Qed.

(** C4: after a successful [createOrder] the returned order lists, for
    each line item in turn, the product's id, name and price as the
    catalog had them when the call began, with the requested quantity;
    its [totalAmount] is the sum of [priceAtOrder * quantity] over those
    items; and every product's stock is what it was less the quantity of
    each line item naming it. *)
Theorem createOrder_success (w : World) (s s' : Store) (userId : string)
    (items : list LineItem) (shippingAddress : Address)
    (paymentMethod : PaymentMethod) (r : ApiResponse Order) :
  keyed (productsDb s) ->
  createOrder userId items shippingAddress paymentMethod w s = (r, s') ->
  success r = true ->
  exists order,
    data r = Some order /\
    Forall2 (captured s) items (Order.items (fields order)) /\
    Order.totalAmount (fields order) =
      subtotals 0 (Order.items (fields order)) /\
    (forall pid,
        stock_at s' pid = option_map (stock_after items pid) (stock_at s pid)).
Proof.
  intros Hkeyed Hrun Hok.
  unfold createOrder, bind at 1, get at 1 in Hrun. simpl in Hrun.
  destruct (Map_get (usersDb s) userId); cycle 1.
  { injection Hrun as <- <-. discriminate. }
  unfold bind at 1 in Hrun.
  destruct (createOrder_items items [] 0 w s) as [[response|[ois total]] s1]
    eqn:Hloop.
  { apply False_ind. clear Hkeyed. revert Hrun Hok Hloop.
    generalize (@nil OrderItem) as acc, 0%float as tot, s as s0.
    induction items as [|item rest IH]; intros acc tot s0 Hrun Hok Hloop.
    - discriminate.
    - simpl in Hloop. unfold bind at 1, get at 1 in Hloop.
      destruct (Map_get _ _) as [p|].
      + destruct (PrimFloat.ltb _ _).
        * injection Hloop as <- <-. injection Hrun as <- <-. discriminate.
        * unfold bind at 1 in Hloop.
          destruct (update _ _ _ _ _) as [? s2]. eauto.
      + injection Hloop as <- <-. injection Hrun as <- <-. discriminate. }
  apply createOrder_items_done in Hloop; [|exact Hkeyed].
  destruct Hloop as (_ & _ & _ & (caps & Hcaps & -> & ->) & Hstk).
  unfold bind, add, Date_now, Math_random, toString36, ret in Hrun.
  simpl in Hrun. injection Hrun as <- <-.
  eexists. split; [reflexivity|]. simpl.
  split; [exact Hcaps|]. split; [reflexivity|].
  exact Hstk.
Qed.

(** The converse: for a known user and line items that are all in stock,
    the call succeeds. *)
Lemma createOrder_items_run items : forall orderItems totalAmount w s,
  keyed (productsDb s) ->
  all_in_stock s items ->
  exists ois total s',
    createOrder_items items orderItems totalAmount w s = (inr (ois, total), s').
Proof.
  induction items as [|item rest IH];
    intros orderItems totalAmount w s Hkeyed Hstock.
  - simpl. unfold ret. eauto.
  - destruct (Hstock [] item rest eq_refl) as (st & Hst & Hlt).
    unfold stock_at, product_at in Hst.
    destruct (Map_get (productsDb s) (item_productId item)) as [p|] eqn:Hp;
      [|discriminate].
    injection Hst as <-. simpl in Hlt.
    assert (Hid : id p = item_productId item) by (eapply keyed_get; eauto).
    simpl. unfold bind at 1, get at 1. simpl. rewrite Hp, Hlt.
    unfold bind at 1.
    rewrite (@update_products_found w s (id p) _ p)
      by (rewrite Hid; exact Hp).
    cbv zeta. apply IH.
    + apply keyed_set; [exact Hkeyed | reflexivity].
    + intros before i after Hsplit.
      destruct (Hstock (item :: before) i after) as (st & Hst & Hlt').
      { simpl. now rewrite Hsplit. }
      unfold stock_at in *. rewrite product_at_set_stock, Hid.
      destruct (String.eqb (item_productId item) (item_productId i)) eqn:E.
      * apply String.eqb_eq in E. rewrite <- E in *.
        unfold product_at in Hst. rewrite Hp in Hst. injection Hst as <-.
        eexists. split; [reflexivity|].
        unfold stock_after in Hlt'. simpl in Hlt'.
        rewrite String.eqb_refl in Hlt'. exact Hlt'.
      * exists st. split; [exact Hst|].
        unfold stock_after in Hlt'. simpl in Hlt'.
        rewrite E in Hlt'. exact Hlt'.
Qed.

Lemma createOrder_succeeds w s userId user items shippingAddress
    paymentMethod :
  keyed (productsDb s) ->
  Map_get (usersDb s) userId = Some user ->
  all_in_stock s items ->
  success (fst (createOrder userId items shippingAddress paymentMethod w s))
  = true.
Proof.
  intros Hkeyed Huser Hstock.
  unfold createOrder, bind at 1, get at 1. simpl. rewrite Huser.
  unfold bind at 1.
  destruct (createOrder_items_run [] 0 w Hkeyed Hstock)
    as (ois & total & s' & ->).
  reflexivity.
Qed.

Lemma createOrder_success_witness :
  let items := [{| item_productId := shop_A; item_quantity := 2 |}] in
  stock_at shop shop_A = Some 5%float /\
  stock_at (snd (createOrder shop_user items demo_address CreditCard
                             demo_world shop)) shop_A = Some 3%float /\
  exists order,
    data (fst (createOrder shop_user items demo_address CreditCard
                           demo_world shop)) = Some order /\
    Order.totalAmount (fields order) = (0 + 10 * 2)%float.
Proof.
  intros items.
  set (run := createOrder shop_user items demo_address CreditCard
                          demo_world shop).
  destruct (@createOrder_success demo_world shop (snd run) shop_user items
              demo_address CreditCard (fst run))
    as (order & Hdata & Hitems & Htotal & Hstock).
  - vm_compute. repeat constructor.
  - apply surjective_pairing.
  - vm_compute. reflexivity.
  - split; [vm_compute; reflexivity|]. split.
    + rewrite Hstock. vm_compute. reflexivity.
    + exists order. split; [exact Hdata|].
      rewrite Htotal. vm_compute in Hdata. injection Hdata as <-.
      vm_compute. reflexivity.
Defined.

(** A product that a single line item names loses exactly that item's
    quantity; one that no line item names keeps its stock. *)
Lemma stock_after_unnamed items pid st :
  Forall (fun item => item_productId item <> pid) items ->
  stock_after items pid st = st.
Proof.
  intros Hall. revert st.
  induction Hall as [|item rest Hne _ IH]; intros st; [reflexivity|].
  unfold stock_after in *. simpl.
  apply String.eqb_neq in Hne. rewrite Hne. apply IH.
Qed.

Lemma stock_after_named_once before item after st :
  Forall (fun i => item_productId i <> item_productId item) before ->
  Forall (fun i => item_productId i <> item_productId item) after ->
  stock_after (before ++ item :: after) (item_productId item) st =
  (st - item_quantity item)%float.
Proof.
  intros Hb Ha. unfold stock_after. rewrite fold_left_app. simpl.
  rewrite String.eqb_refl.
  fold (stock_after before (item_productId item) st).
  rewrite (stock_after_unnamed _ Hb).
  exact (stock_after_unnamed _ Ha).
Qed.

(** An unknown user, or a first line item that cannot be served, fails
    the call before anything is written. *)
Lemma createOrder_unknown_user w s userId items shippingAddress paymentMethod :
  Map_get (usersDb s) userId = None ->
  createOrder userId items shippingAddress paymentMethod w s =
  (fail UserNotFound, s).
Proof.
  intros Hu. unfold createOrder, bind, get. simpl. now rewrite Hu.
Qed.

Lemma createOrder_first_item_fails w s userId item rest shippingAddress
    paymentMethod :
  match product_at s (item_productId item) with
  | None => True
  | Some p =>
      PrimFloat.ltb (Product.stock (fields p)) (item_quantity item) = true
  end ->
  exists e,
    createOrder userId (item :: rest) shippingAddress paymentMethod w s =
    (fail e, s).
Proof.
  intros Hfirst. unfold createOrder, bind, get, ret. simpl.
  destruct (Map_get (usersDb s) userId); [|eauto].
  unfold bind, get, ret. simpl. unfold product_at in Hfirst.
  destruct (Map_get (productsDb s) (item_productId item)); [|eauto].
  rewrite Hfirst. eauto.
Qed.

(** C1 fails on the code: with [A] in stock and [B] short, an order for
    two [A] and three [B] is refused for [B], yet the two units of [A]
    taken before the refusal stay taken. *)
Theorem createOrder_failure_keeps_decrement :
  let items := [{| item_productId := shop_A; item_quantity := 2 |};
                {| item_productId := shop_B; item_quantity := 3 |}] in
  let (r, s') :=
    createOrder shop_user items demo_address CreditCard demo_world shop in
  success r = false /\
  error r = Some (NotEnoughStock "B" 1 3) /\
  stock_at shop shop_A = Some 5%float /\
  stock_at s' shop_A = Some 3%float.
Proof. vm_compute. repeat split; reflexivity. Qed.

(** C2 fails on the code: cancelling the order for two [A] once brings
    the stock of [A] back from 3 to 5, and cancelling the same order
    again raises it to 7. *)
Theorem cancel_twice_restores_twice :
  let cancel := updateOrderStatus shop_order Cancelled demo_world in
  let (r1, s1) := cancel shop_with_order in
  let (r2, s2) := cancel s1 in
  stock_at shop shop_A = Some 5%float /\
  stock_at shop_with_order shop_A = Some 3%float /\
  success r1 = true /\
  option_map (fun o => Order.status (fields o)) (order_at s1 shop_order)
    = Some Cancelled /\
  stock_at s1 shop_A = Some 5%float /\
  success r2 = true /\
  stock_at s2 shop_A = Some 7%float.
Proof. vm_compute. repeat split; reflexivity. Qed.

(** The guard the sibling branches have: marking a shipped order
    [Shipped] again does not set [shippedDate] a second time. *)
Lemma ship_twice_keeps_shippedDate :
  let ship := updateOrderStatus shop_order Shipped demo_world in
  let (r1, s1) := ship shop_with_order in
  let (r2, s2) := ship s1 in
  option_map (fun o => Order.shippedDate (fields o)) (order_at s1 shop_order)
    = Some (Some 1700000000011%Z) /\
  option_map (fun o => Order.shippedDate (fields o)) (order_at s2 shop_order)
    = Some (Some 1700000000011%Z).
Proof. vm_compute. split; reflexivity. Qed.

(** C3 fails on the code: [addProduct] refuses a negative stock, but
    [updateProduct] writes one. *)
Theorem updateProduct_negative_stock :
  let (r, s') :=
    ProductService.updateProduct shop_A (Product.only_stock (-1))
                                 demo_world shop in
  success r = true /\
  stock_at s' shop_A = Some (-1)%float /\
  PrimFloat.ltb (-1) 0 = true /\
  fst (ProductService.addProduct (demo_product "C" 10 (-1)) demo_world shop)
    = fail PriceAndStockMustBePositive.
Proof. vm_compute. repeat split; reflexivity. Qed.

End OrderFacts.

(* ================================================================== *)
(** ** Rounding to one decimal *)






(* ================================================================== *)
(** ** The review aggregator *)

Module ReviewFacts.
Import InMemoryDatabase ReviewService.

Lemma add_reviews_run (reviewData : Review.New) w s :
  add reviews reviewData w s =
  let newReview :=
    mkEntity (entity_id (clock w (ticks s)) (radix36 w (random w (draws s))))
             (clock w (S (ticks s))) (clock w (S (ticks s))) reviewData in
  (newReview,
   set_collection reviews (Map_set (reviewsDb s) (id newReview) newReview)
                  (tick (draw (tick s)))).
Proof. reflexivity. Qed.




End ReviewFacts.

(* ================================================================== *)
(** ** Further laws of [Map] *)

Section MapLaws.
Variable T : Type.
Implicit Types (m : Map T) (k : string) (v : T).

Lemma Map_get_None m k : Map_get m k = None <-> ~ In k (map fst m).
Proof.
  induction m as [|[k' v'] m IH]; simpl; [tauto|].
  destruct (String.eqb_spec k' k) as [->|Hne].
  - split; [discriminate | intros Hn; exfalso; auto].
  - rewrite IH. tauto.
Qed.

Lemma Map_keys_set m k v :
  map fst (Map_set m k v) =
  if Map_has m k then map fst m else map fst m ++ [k].
Proof.
  unfold Map_has. induction m as [|[k' v'] m IH]; simpl; [reflexivity|].
  destruct (String.eqb k' k); simpl; [reflexivity|].
  rewrite IH. now destruct (Map_get m k).
Qed.

Lemma Map_values_set_fresh m k v :
  Map_get m k = None -> Map_values (Map_set m k v) = Map_values m ++ [v].
Proof.
  unfold Map_values. induction m as [|[k' v'] m IH]; simpl; [reflexivity|].
  destruct (String.eqb k' k); [discriminate|].
  intros Hm. simpl. now rewrite IH.
Qed.

Lemma Map_values_set_length m k v e :
  Map_get m k = Some e ->
  List.length (Map_values (Map_set m k v)) = List.length (Map_values m).
Proof.
  unfold Map_values. induction m as [|[k' v'] m IH]; simpl; [discriminate|].
  destruct (String.eqb k' k); simpl; [reflexivity|].
  intros Hm. now rewrite IH.
Qed.

Lemma NoDup_snoc (l : list string) k :
  NoDup l -> ~ In k l -> NoDup (l ++ [k]).
Proof.
  induction 1 as [|x l Hx Hl IH]; simpl; intros Hk.
  - constructor; [tauto | constructor].
  - constructor.
    + rewrite in_app_iff. simpl. intros [Hin|[->|[]]]; tauto.
    + apply IH. tauto.
Qed.

Lemma unique_keys_set m k v : unique_keys m -> unique_keys (Map_set m k v).
Proof.
  unfold unique_keys. intros Hm. rewrite Map_keys_set. unfold Map_has.
  destruct (Map_get m k) eqn:Hk; [exact Hm|].
  apply Map_get_None in Hk. now apply NoDup_snoc.
Qed.

Lemma Map_delete_found m k v :
  Map_get m k = Some v -> fst (Map_delete m k) = true.
Proof.
  induction m as [|[k' v'] m IH]; simpl; [discriminate|].
  destruct (String.eqb k' k); [reflexivity|].
  intros Hm. specialize (IH Hm).
  destruct (Map_delete m k). exact IH.
Qed.

Lemma Map_delete_missing m k :
  Map_get m k = None -> Map_delete m k = (false, m).
Proof.
  induction m as [|[k' v'] m IH]; simpl; [reflexivity|].
  destruct (String.eqb k' k); [discriminate|].
  intros Hm. now rewrite IH.
Qed.

Lemma Map_keys_delete m k x :
  In x (map fst (snd (Map_delete m k))) -> In x (map fst m).
Proof.
  induction m as [|[k' v'] m IH]; simpl; [tauto|].
  destruct (String.eqb k' k); simpl; [tauto|].
  destruct (Map_delete m k) as [b rest]. simpl in *. tauto.
Qed.

Lemma unique_keys_delete m k :
  unique_keys m -> unique_keys (snd (Map_delete m k)).
Proof.
  unfold unique_keys. induction m as [|[k' v'] m IH]; simpl; intros Hm.
  - constructor.
  - inversion Hm as [|? ? Hnin Hrest]; subst.
    destruct (String.eqb k' k); simpl; [exact Hrest|].
    specialize (IH Hrest).
    destruct (Map_delete m k) as [b rest] eqn:E. simpl in *.
    constructor; [|exact IH].
    intros Hin. apply Hnin.
    apply (Map_keys_delete m k). now rewrite E.
Qed.

Lemma Map_get_delete_same m k :
  unique_keys m -> Map_get (snd (Map_delete m k)) k = None.
Proof.
  unfold unique_keys. induction m as [|[k' v'] m IH]; simpl; intros Hm.
  - reflexivity.
  - inversion Hm as [|? ? Hnin Hrest]; subst.
    destruct (String.eqb_spec k' k) as [->|Hne]; simpl.
    + now apply Map_get_None.
    + specialize (IH Hrest).
      destruct (Map_delete m k) as [b rest]. simpl in *.
      destruct (String.eqb_spec k' k); [contradiction | exact IH].
Qed.

Lemma Map_get_delete_other m k k' :
  k <> k' -> Map_get (snd (Map_delete m k)) k' = Map_get m k'.
Proof.
  intros Hne. induction m as [|[k0 v0] m IH]; simpl; [reflexivity|].
  destruct (String.eqb_spec k0 k) as [->|Hk0]; simpl.
  - destruct (String.eqb_spec k k'); [contradiction | reflexivity].
  - destruct (Map_delete m k) as [b rest]. simpl in *. now rewrite IH.
Qed.

End MapLaws.

Lemma well_stored_set (N : Type) (m : Map (Entity N)) k e :
  well_stored m -> id e = k -> well_stored (Map_set m k e).
Proof.
  intros [Hu Hk] He. split; [now apply unique_keys_set | now apply keyed_set].
Qed.

Lemma well_stored_delete (N : Type) (m : Map (Entity N)) k :
  well_stored m -> well_stored (snd (Map_delete m k)).
Proof.
  intros [Hu Hk]. split; [now apply unique_keys_delete | now apply keyed_delete].
Qed.

#[export] Instance Lawful_users : LawfulHandle users.
Proof. split; reflexivity. Qed.
#[export] Instance Lawful_products : LawfulHandle products.
Proof. split; reflexivity. Qed.
#[export] Instance Lawful_orders : LawfulHandle orders.
Proof. split; reflexivity. Qed.
#[export] Instance Lawful_reviews : LawfulHandle reviews.
Proof. split; reflexivity. Qed.
#[export] Instance Lawful_payments : LawfulHandle payments.
Proof. split; reflexivity. Qed.

(* ================================================================== *)
(** ** Laws of the repository *)

Module RepositoryLaws.
Import InMemoryDatabase.

Section Laws.
Context {N : Type} `{Updatable N}.
Variable db : Handle N.
Context `{!LawfulHandle db}.

Lemma add_run (item : N) w s :
  add db item w s =
  let e := mkEntity
             (entity_id (clock w (ticks s)) (radix36 w (random w (draws s))))
             (clock w (S (ticks s))) (clock w (S (ticks s))) item in
  (e, set_collection db (Map_set (collection db s) (id e) e)
                     (tick (draw (tick s)))).
Proof.
  unfold add, bind, Date_now, Math_random, toString36. simpl.
  now rewrite collection_tick, collection_draw, collection_tick.
Qed.

Lemma update_run_found id' updates e w s :
  Map_get (collection db s) id' = Some e ->
  update db id' updates w s =
  let e' := mkEntity (id e) (createdAt e) (clock w (ticks s))
                     (merge (fields e) updates) in
  (Some e', set_collection db (Map_set (collection db s) id' e') (tick s)).
Proof.
  intros He. unfold update, bind, get, Date_now. simpl.
  rewrite He. simpl. now rewrite collection_tick.
Qed.

(** [get] after [add]: the record [add] returns is the one stored under
    its id. *)
Theorem add_then_get (item : N) w s :
  let (e, s1) := add db item w s in
  get db (id e) w s1 = (Some e, s1) /\ fields e = item /\
  createdAt e = updatedAt e.
Proof.
  rewrite add_run. cbv zeta. unfold get.
  rewrite collection_set, Map_get_set_same. auto.
Qed.

(** [add] leaves every other id as it was; a fresh id goes to the end of
    [getAll], an id already present keeps the number of records. *)
Theorem add_frame (item : N) w s :
  let (e, s1) := add db item w s in
  (forall k, k <> id e ->
             fst (get db k w s1) = fst (get db k w s)) /\
  (fst (get db (id e) w s) = None ->
   fst (getAll db w s1) = fst (getAll db w s) ++ [e]) /\
  (fst (get db (id e) w s) <> None ->
   List.length (fst (getAll db w s1)) = List.length (fst (getAll db w s))).
Proof.
  rewrite add_run. cbv zeta. unfold get, getAll. simpl.
  rewrite collection_set. repeat split.
  - intros k Hk. now apply Map_get_set_other.
  - apply Map_values_set_fresh.
  - intros Hsome.
    destruct (Map_get (collection db s) _) eqn:E; [|contradiction].
    eapply Map_values_set_length; eauto.
Qed.

Lemma update_run_missing id' updates w s :
  Map_get (collection db s) id' = None ->
  update db id' updates w s = (None, s).
Proof.
  unfold get, update, bind. simpl. intros ->. reflexivity.
Qed.

(** [update] of an id that is not stored returns [undefined] and changes
    nothing, not even the clock. *)
Theorem update_missing id' updates w s :
  fst (get db id' w s) = None ->
  update db id' updates w s = (None, s).
Proof.
  intros Hmissing. apply update_run_missing. exact Hmissing.
Qed.

(** [update] of a stored id keeps [id] and [createdAt], stamps
    [updatedAt] with the clock, spreads the updates over the fields,
    stores the result under the same key, and leaves the other records
    and the number of records alone. *)
Theorem update_found id' updates e w s :
  fst (get db id' w s) = Some e ->
  exists e' s',
    update db id' updates w s = (Some e', s') /\
    id e' = id e /\ createdAt e' = createdAt e /\
    updatedAt e' = clock w (ticks s) /\
    fields e' = merge (fields e) updates /\
    get db id' w s' = (Some e', s') /\
    (forall k, k <> id' -> fst (get db k w s') = fst (get db k w s)) /\
    List.length (fst (getAll db w s')) = List.length (fst (getAll db w s)).
Proof.
  unfold get at 1. simpl. intros He.
  rewrite (@update_run_found id' updates e w s He). cbv zeta.
  eexists. eexists. split; [reflexivity|]. simpl.
  unfold get, getAll. simpl. rewrite collection_set.
  repeat split.
  - now rewrite Map_get_set_same.
  - intros k Hk. now apply Map_get_set_other.
  - eapply Map_values_set_length; eauto.
Qed.

(** [delete] answers whether the id was stored; a missing id changes
    nothing. *)
Theorem delete_result id' w s :
  fst (delete db id' w s) =
  match fst (get db id' w s) with Some _ => true | None => false end /\
  (fst (get db id' w s) = None ->
   collection db (snd (delete db id' w s)) = collection db s).
Proof.
  unfold delete, get. simpl.
  destruct (Map_get (collection db s) id') eqn:E.
  - apply Map_delete_found in E.
    destruct (Map_delete _ _) as [b m]. simpl in *. split; [exact E|].
    discriminate.
  - rewrite (Map_delete_missing _ _ E). simpl.
    rewrite collection_set. auto.
Qed.

(** After [delete], [get] of that id finds nothing, and every other id
    is as before. *)
Theorem delete_then_get id' w s :
  unique_keys (collection db s) ->
  let s1 := snd (delete db id' w s) in
  fst (get db id' w s1) = None /\
  (forall k, k <> id' -> fst (get db k w s1) = fst (get db k w s)).
Proof.
  intros Hu. unfold delete, get. simpl.
  pose proof (Map_get_delete_same id' Hu) as Hsame.
  pose proof (fun k => @Map_get_delete_other _ (collection db s) id' k) as Hoth.
  destruct (Map_delete _ _) as [b m]. simpl in *.
  rewrite collection_set. auto.
Qed.

Lemma add_well_stored item w s :
  well_stored (collection db s) ->
  well_stored (collection db (snd (add db item w s))).
Proof.
  intros Hok. rewrite add_run. cbv zeta. simpl. rewrite collection_set.
  apply well_stored_set; auto.
Qed.

Lemma update_well_stored id' updates w s :
  well_stored (collection db s) ->
  well_stored (collection db (snd (update db id' updates w s))).
Proof.
  intros Hok. destruct (Map_get (collection db s) id') as [e|] eqn:E.
  - rewrite (@update_run_found id' updates e w s E). cbv zeta. simpl.
    rewrite collection_set.
    apply well_stored_set; [exact Hok|]. simpl.
    destruct Hok as [_ Hk]. eapply keyed_get; eauto.
  - rewrite update_run_missing by exact E. exact Hok.
Qed.

Lemma delete_well_stored id' w s :
  well_stored (collection db s) ->
  well_stored (collection db (snd (delete db id' w s))).
Proof.
  intros Hok. unfold delete. simpl.
  pose proof (well_stored_delete id' Hok) as Hd.
  destruct (Map_delete _ _) as [b m]. simpl in *.
  now rewrite collection_set.
Qed.

(** The repository keeps its collection a map with every record under
    its own id, whatever is added, updated or deleted. *)
Theorem repository_well_stored w s :
  well_stored (collection db s) ->
  (forall item, well_stored (collection db (snd (add db item w s)))) /\
  (forall id' updates,
      well_stored (collection db (snd (update db id' updates w s)))) /\
  (forall id', well_stored (collection db (snd (delete db id' w s)))).
Proof.
  intros Hok. split; [|split].
  - intros item. now apply add_well_stored.
  - intros id' updates. now apply update_well_stored.
  - intros id'. now apply delete_well_stored.
Qed.

End Laws.

Ltac distinct_keys :=
  vm_compute;
  repeat (constructor;
          [simpl; intuition discriminate|]);
  constructor.

Lemma add_then_get_witness :
  let (e, s1) := add products (demo_product "C" 30 2) demo_world shop in
  get products (id e) demo_world s1 = (Some e, s1) /\
  fields e = demo_product "C" 30 2 /\ createdAt e = updatedAt e.
Proof.
  exact (add_then_get (db := products) (demo_product "C" 30 2)
                      demo_world shop).
Defined.

Lemma add_frame_witness :
  let (e, s1) := add products (demo_product "C" 30 2) demo_world shop in
  fst (getAll products demo_world s1) =
  fst (getAll products demo_world shop) ++ [e].
Proof.
  generalize (add_frame (db := products) (demo_product "C" 30 2)
                        demo_world shop).
  destruct (add products (demo_product "C" 30 2) demo_world shop) as [e s1]
    eqn:Hadd.
  intros (_ & Hfresh & _). apply Hfresh.
  vm_compute in Hadd. injection Hadd as <- _. vm_compute. reflexivity.
Defined.

Lemma update_missing_witness :
  update products "entity_0_x" (Product.only_stock 9) demo_world shop =
  (None, shop).
Proof.
  apply (update_missing (H := Updatable_Product) products). vm_compute. reflexivity.
Defined.

Lemma update_found_witness :
  exists e' s',
    update products shop_A (Product.only_stock 9) demo_world shop =
    (Some e', s') /\
    get products shop_A demo_world s' = (Some e', s') /\
    Product.stock (fields e') = 9%float.
Proof.
  destruct (fst (get products shop_A demo_world shop)) as [e|] eqn:He;
    [|vm_compute in He; discriminate].
  destruct (update_found (H := Updatable_Product) (db := products) shop_A
                         (Product.only_stock 9) demo_world shop He)
    as (e' & s' & Hrun & _ & _ & _ & Hfields & Hget & _).
  exists e', s'. split; [exact Hrun|]. split; [exact Hget|].
  rewrite Hfields. reflexivity.
Defined.

Lemma delete_result_witness :
  fst (delete products shop_A demo_world shop) = true.
Proof.
  rewrite (proj1 (delete_result (db := products) shop_A demo_world shop)).
  vm_compute. reflexivity.
Defined.

Lemma delete_then_get_witness :
  let s1 := snd (delete products shop_A demo_world shop) in
  fst (get products shop_A demo_world s1) = None /\
  fst (get products shop_B demo_world s1) =
  fst (get products shop_B demo_world shop).
Proof.
  destruct (delete_then_get (db := products) shop_A demo_world shop)
    as [Hgone Hkept].
  - distinct_keys.
  - split; [exact Hgone|]. apply Hkept. discriminate.
Defined.

Lemma repository_well_stored_witness :
  well_stored
    (collection products
       (snd (add products (demo_product "C" 30 2) demo_world shop))).
Proof.
  apply (repository_well_stored (db := products) demo_world shop).
  split; [distinct_keys | vm_compute; repeat constructor].
Defined.

End RepositoryLaws.

(* ================================================================== *)
(** ** An invariant of every service *)

Module StoreInvariant.
Import InMemoryDatabase RepositoryLaws.

Lemma preserves_ret (P : Store -> Prop) (A : Type) (a : A) :
  preserves P (ret a).
Proof. intros w s Hs. exact Hs. Qed.

Lemma preserves_bind (P : Store -> Prop) (A B : Type) (m : M A)
    (k : A -> M B) :
  preserves P m -> (forall a, preserves P (k a)) -> preserves P (bind m k).
Proof.
  intros Hm Hk w s Hs. unfold bind.
  specialize (Hm w s Hs). destruct (m w s) as [a s1]. simpl in Hm.
  exact (Hk a w s1 Hm).
Qed.

Lemma store_ok_tick s : store_ok s -> store_ok (tick s).
Proof. exact (fun H => H). Qed.

Lemma store_ok_draw s : store_ok s -> store_ok (draw s).
Proof. exact (fun H => H). Qed.

Lemma preserves_Date_now : preserves store_ok Date_now.
Proof. intros w s. apply store_ok_tick. Qed.

Lemma preserves_Math_random : preserves store_ok Math_random.
Proof. intros w s. apply store_ok_draw. Qed.

Lemma preserves_toString36 x : preserves store_ok (toString36 x).
Proof. intros w s Hs. exact Hs. Qed.

Section Reads.
Context {N : Type} `{Updatable N}.
Variable db : Handle N.

Lemma preserves_get (P : Store -> Prop) k : preserves P (get db k).
Proof. intros w s Hs. exact Hs. Qed.

Lemma preserves_getAll (P : Store -> Prop) : preserves P (getAll db).
Proof. intros w s Hs. exact Hs. Qed.

Lemma preserves_findBy (P : Store -> Prop) (V : Type) `{StrictEq V}
    (key : Entity N -> V) v :
  preserves P (findBy db key v).
Proof. intros w s Hs. exact Hs. Qed.

End Reads.

(** Each repository of the store, written through its own handle. *)
Ltac on_handle h :=
  let Hnew := fresh "Hnew" in
  let E := fresh "E" in
  intros w s (Hu & Hp & Ho & Hr & Hy);
  match goal with
  | |- store_ok (snd (add _ ?item _ _)) =>
      pose proof (add_well_stored (db := h) item w s ltac:(assumption))
        as Hnew;
      rewrite (add_run (db := h)) in Hnew |- *;
      simpl in Hnew |- *
  | |- store_ok (snd (update _ ?k ?u _ _)) =>
      pose proof (update_well_stored (db := h) k u w s ltac:(assumption))
        as Hnew;
      destruct (Map_get (collection h s) k) as [e|] eqn:E;
      [rewrite (update_run_found (db := h) k u w s E) in Hnew |- *
      |rewrite (update_run_missing h k u w s E) in Hnew |- *];
      simpl in Hnew |- *
  | |- store_ok (snd (delete _ ?k _ _)) =>
      pose proof (delete_well_stored (db := h) k w s ltac:(assumption))
        as Hnew;
      unfold delete in Hnew |- *;
      destruct (Map_delete (collection h s) k) as [b m];
      simpl in Hnew |- *
  end;
  unfold store_ok; simpl; tauto.

Lemma preserves_add_users item : preserves store_ok (add users item).
Proof. on_handle users. Qed.
Lemma preserves_add_products item : preserves store_ok (add products item).
Proof. on_handle products. Qed.
Lemma preserves_add_orders item : preserves store_ok (add orders item).
Proof. on_handle orders. Qed.
Lemma preserves_add_reviews item : preserves store_ok (add reviews item).
Proof. on_handle reviews. Qed.
Lemma preserves_add_payments item : preserves store_ok (add payments item).
Proof. on_handle payments. Qed.

Lemma preserves_update_users k u : preserves store_ok (update users k u).
Proof. on_handle users. Qed.
Lemma preserves_update_products k u :
  preserves store_ok (update products k u).
Proof. on_handle products. Qed.
Lemma preserves_update_orders k u : preserves store_ok (update orders k u).
Proof. on_handle orders. Qed.

Lemma preserves_delete_products k : preserves store_ok (delete products k).
Proof. on_handle products. Qed.

Create HintDb keeps.
#[local] Hint Resolve preserves_Date_now
  preserves_Math_random preserves_toString36 preserves_get preserves_getAll
  preserves_findBy preserves_add_users preserves_add_products
  preserves_add_orders preserves_add_reviews preserves_add_payments
  preserves_update_users preserves_update_products preserves_update_orders
  preserves_delete_products : keeps.

(** Walks a service method: binds, branches and returns. *)
Ltac keeps :=
  repeat first
    [ solve [auto with keeps]
    | simple apply preserves_ret
    | simple apply preserves_bind; [|intros ?]
    | match goal with
      | |- preserves _ (match ?x with _ => _ end) => destruct x
      | |- preserves _ (if ?b then _ else _) => destruct b
      end ].

Lemma preserves_createOrder_items items : forall orderItems totalAmount,
  preserves store_ok
    (OrderService.createOrder_items items orderItems totalAmount).
Proof.
  induction items as [|item rest IH]; intros orderItems totalAmount; simpl.
  - keeps.
  - pose proof IH. keeps.
Qed.

Lemma preserves_restore_stock items :
  preserves store_ok (OrderService.restore_stock items).
Proof.
  induction items as [|item rest IH]; simpl; keeps.
Qed.

#[local] Hint Resolve preserves_createOrder_items preserves_restore_stock
  : keeps.

(** The empty store is well stored, and every method of the five
    services leaves a well-stored store well stored: each repository
    stays a map without repeated keys whose records sit under their own
    ids. *)
Theorem services_keep_store_ok :
  store_ok empty_store /\
  (forall userData, preserves store_ok (UserService.registerUser userData)) /\
  (forall credentials,
      preserves store_ok (UserService.authenticateUser credentials)) /\
  (forall userId, preserves store_ok (UserService.getUserProfile userId)) /\
  (forall userId updates,
      preserves store_ok (UserService.updateUserProfile userId updates)) /\
  (forall productData,
      preserves store_ok (ProductService.addProduct productData)) /\
  (forall productId, preserves store_ok (ProductService.getProduct productId)) /\
  (forall category,
      preserves store_ok (ProductService.getAllProducts category)) /\
  (forall productId updates,
      preserves store_ok (ProductService.updateProduct productId updates)) /\
  (forall productId adminId,
      preserves store_ok (ProductService.deleteProduct productId adminId)) /\
  (forall userId items shippingAddress paymentMethod,
      preserves store_ok
        (OrderService.createOrder userId items shippingAddress
                                  paymentMethod)) /\
  (forall orderId, preserves store_ok (OrderService.getOrder orderId)) /\
  (forall userId, preserves store_ok (OrderService.getUserOrders userId)) /\
  (forall orderId newStatus,
      preserves store_ok (OrderService.updateOrderStatus orderId newStatus)) /\
  (forall orderId userId amount method,
      preserves store_ok
        (PaymentService.processPayment orderId userId amount method)) /\
  (forall userId,
      preserves store_ok (PaymentService.getPaymentHistory userId)) /\
  (forall reviewData,
      preserves store_ok (ReviewService.submitReview reviewData)) /\
  (forall productId,
      preserves store_ok (ReviewService.getProductReviews productId)) /\
  (forall userId, preserves store_ok (ReviewService.getUserReviews userId)).
Proof.
  split.
  { repeat split; constructor. }
  repeat apply conj; intros;
    unfold UserService.registerUser, UserService.authenticateUser,
      UserService.getUserProfile, UserService.updateUserProfile,
      ProductService.addProduct, ProductService.getProduct,
      ProductService.getAllProducts, ProductService.updateProduct,
      ProductService.deleteProduct, OrderService.createOrder,
      OrderService.getOrder, OrderService.getUserOrders,
      OrderService.updateOrderStatus, PaymentService.processPayment,
      PaymentService.getPaymentHistory, ReviewService.submitReview,
      ReviewService.getProductReviews, ReviewService.getUserReviews;
    keeps.
Qed.

Lemma services_keep_store_ok_witness :
  store_ok
    (snd (OrderService.createOrder shop_user
            [{| item_productId := shop_A; item_quantity := 2 |}]
            demo_address CreditCard demo_world shop)).
Proof.
  destruct services_keep_store_ok
    as (_ & _ & _ & _ & _ & _ & _ & _ & _ & _ & Hcreate & _).
  apply Hcreate.
  repeat apply conj; first [RepositoryLaws.distinct_keys
                           | vm_compute; repeat constructor].
Defined.

End StoreInvariant.

(* ================================================================== *)
(** ** Laws of the user directory *)

Module UserLaws.
Import InMemoryDatabase UserService.

Lemma length_append (a b : string) :
  String.length (a ++ b) = (String.length a + String.length b)%nat.
Proof. induction a as [|c a IH]; simpl; [reflexivity | now rewrite IH]. Qed.

Lemma hashed_longer password time : hashed password time <> password.
Proof.
  unfold hashed. intros E. apply (f_equal String.length) in E.
  simpl in E. rewrite length_append in E. lia.
Qed.

Lemma underscore_inside (a x : string) :
  underscore_free (a ++ String "_" x) = false.
Proof.
  induction a as [|c a IH]; simpl; [reflexivity|].
  rewrite IH. apply andb_false_r.
Qed.

(** Two strings that agree before an underscore and an underscore-free
    rest agree part by part. *)
Lemma split_at_last_underscore a b x y :
  underscore_free x = true -> underscore_free y = true ->
  (a ++ String "_" x)%string = (b ++ String "_" y)%string ->
  a = b /\ x = y.
Proof.
  intros Hx Hy. revert b.
  induction a as [|c a IH]; intros [|c' b]; simpl; intros E.
  - injection E as ->. auto.
  - injection E as _ ->. now rewrite underscore_inside in Hx.
  - injection E as _ <-. now rewrite underscore_inside in Hy.
  - injection E as <- E. destruct (IH b E) as [-> ->]. auto.
Qed.

Lemma hashed_inj p t p' t' : hashed p t = hashed p' t' -> p = p' /\ t = t'.
Proof.
  unfold hashed. intros E. simpl in E. injection E as E.
  apply split_at_last_underscore in E; auto using decimal_underscore_free.
  destruct E as [-> E]. apply decimal_inj in E. auto.
Qed.

(** Registering and reading back: a successful [registerUser] returns
    the user it stored, under the requested name, and the stored
    [passwordHash] is [hashed_<password>_<time>], never the password
    itself. *)
Theorem registerUser_stores_hash (w : World) (s s' : Store)
    (userData : User.New) (r : ApiResponse User) (password : string) :
  registerUser userData w s = (r, s') ->
  success r = true ->
  User.passwordHash userData = Some password ->
  exists u,
    data r = Some u /\
    fst (get users (id u) w s') = Some u /\
    User.username (fields u) = User.username userData /\
    User.passwordHash (fields u) =
      Some (hashed password (clock w (ticks s))) /\
    User.passwordHash (fields u) <> Some password.
Proof.
  intros Hrun Hok Hpw.
  destruct (users_named s (User.username userData)) eqn:Hfree.
  - rewrite UserFacts.registerUser_free in Hrun by assumption.
    cbv zeta in Hrun. injection Hrun as <- <-.
    eexists. split; [reflexivity|].
    unfold get. simpl. rewrite Map_get_set_same, Hpw.
    repeat split. intros [= E]. exact (hashed_longer E).
  - rewrite UserFacts.registerUser_taken in Hrun
      by (rewrite Hfree; discriminate).
    injection Hrun as <- <-. discriminate.
Qed.

Lemma registerUser_stores_hash_witness :
  exists u,
    data (fst (registerUser demo_user demo_world empty_store)) = Some u /\
    User.passwordHash (fields u) <> Some "password123".
Proof.
  destruct (@registerUser_stores_hash demo_world empty_store
              (snd (registerUser demo_user demo_world empty_store))
              demo_user
              (fst (registerUser demo_user demo_world empty_store))
              "password123")
    as (u & Hdata & _ & _ & _ & Hne).
  - apply surjective_pairing.
  - vm_compute. reflexivity.
  - reflexivity.
  - exists u. auto.
Defined.

(** Logging in after registering: [authenticateUser] reads only, and it
    accepts the registered name exactly when the password is the
    registered one and the clock showed, when [registerUser] hashed the
    password, the same millisecond it showed when [add] stamped
    [createdAt]; otherwise it answers 'Invalid credentials.'. *)
Theorem authenticate_after_register (w : World) (s s1 : Store)
    (userData : User.New) (r : ApiResponse User)
    (password attempt : string) :
  registerUser userData w s = (r, s1) ->
  success r = true ->
  User.passwordHash userData = Some password ->
  let credentials :=
    {| cred_username := User.username userData;
       cred_passwordHash := attempt |} in
  snd (authenticateUser credentials w s1) = s1 /\
  (attempt = password /\ clock w (ticks s) = clock w (S (S (ticks s))) ->
   fst (authenticateUser credentials w s1) = r) /\
  (~ (attempt = password /\ clock w (ticks s) = clock w (S (S (ticks s)))) ->
   fst (authenticateUser credentials w s1) = fail InvalidCredentials).
Proof.
  intros Hrun Hok Hpw credentials. subst credentials.
  destruct (users_named s (User.username userData)) eqn:Hfree; cycle 1.
  { rewrite UserFacts.registerUser_taken in Hrun
      by (rewrite Hfree; discriminate).
    injection Hrun as <- <-. discriminate. }
  rewrite UserFacts.registerUser_free in Hrun by assumption.
  cbv zeta in Hrun. injection Hrun as <- <-.
  unfold authenticateUser, bind, findBy, username_of, strict_eq,
    StrictEq_string.
  cbn [collection users usersDb set_collection cred_username fst snd].
  rewrite (filter_values_set_fresh _ _ _ _ Hfree)
    by (simpl; apply String.eqb_refl).
  cbn [fields User.passwordHash hash_password createdAt cred_passwordHash].
  rewrite Hpw.
  destruct (String.eqb_spec
              (hashed password (clock w (ticks s)))
              (hashed attempt (clock w (S (S (ticks s)))))) as [E|E].
  - apply hashed_inj in E as [-> E]. split; [reflexivity|]. split.
    + reflexivity.
    + intros Hn. exfalso. apply Hn. auto.
  - split; [reflexivity|]. split.
    + intros [-> Ht]. rewrite Ht in E. contradiction.
    + reflexivity.
Qed.

Lemma authenticate_after_register_witness :
  let s1 := snd (registerUser demo_user demo_world empty_store) in
  fst (authenticateUser {| cred_username := "testuser";
                           cred_passwordHash := "password123" |}
                        demo_world s1) = fail InvalidCredentials /\
  fst (authenticateUser {| cred_username := "testuser";
                           cred_passwordHash := "password123" |}
                        frozen_world
                        (snd (registerUser demo_user frozen_world empty_store)))
  = fst (registerUser demo_user frozen_world empty_store).
Proof.
  intros s1. split.
  - refine (proj2 (proj2 (@authenticate_after_register demo_world empty_store
                            s1 demo_user
                            (fst (registerUser demo_user demo_world
                                               empty_store))
                            "password123" "password123" _ _ _)) _).
    + apply surjective_pairing.
    + vm_compute. reflexivity.
    + reflexivity.
    + vm_compute. intros [_ E]. discriminate.
  - refine (proj1 (proj2 (@authenticate_after_register frozen_world
                            empty_store
                            (snd (registerUser demo_user frozen_world
                                               empty_store))
                            demo_user
                            (fst (registerUser demo_user frozen_world
                                               empty_store))
                            "password123" "password123" _ _ _)) _).
    + apply surjective_pairing.
    + vm_compute. reflexivity.
    + reflexivity.
    + vm_compute. auto.
Defined.

(** [updateUserProfile] strips the hash from the user it returns only:
    the stored user keeps its [passwordHash], [id] and [createdAt], takes
    the new profile fields, and no other user changes. *)
Theorem updateUserProfile_keeps_credentials (w : World) (s : Store)
    (userId : string) (updates : User.ProfileUpdates) (u : User) :
  fst (get users userId w s) = Some u ->
  let s' := snd (updateUserProfile userId updates w s) in
  (exists u',
      fst (get users userId w s') = Some u' /\
      User.passwordHash (fields u') = User.passwordHash (fields u) /\
      id u' = id u /\ createdAt u' = createdAt u /\
      User.username (fields u') =
        spread (User.username (fields u)) (User.new_username updates) /\
      User.email (fields u') =
        spread (User.email (fields u)) (User.new_email updates)) /\
  (forall k, k <> userId ->
             fst (get users k w s') = fst (get users k w s)).
Proof.
  intros Hu s'. subst s'. unfold get in Hu. cbn [fst collection users] in Hu.
  unfold updateUserProfile, bind.
  rewrite (RepositoryLaws.update_run_found (H := Updatable_User)
             (db := users) userId (User.as_updates updates) w s Hu).
  cbv zeta. cbn [fst snd ret]. unfold get. simpl. split.
  - eexists. rewrite Map_get_set_same. split; [reflexivity|]. simpl. auto.
  - intros k Hk. now apply Map_get_set_other.
Qed.

Lemma updateUserProfile_keeps_credentials_witness :
  let updates :=
    {| User.new_username := None; User.new_email := Some "new@example.com";
       User.new_role := None; User.new_address := None;
       User.new_phone := None |} in
  let s' := snd (updateUserProfile shop_user updates demo_world shop) in
  exists u',
    fst (get users shop_user demo_world s') = Some u' /\
    User.passwordHash (fields u') =
      Some "hashed_password123_1700000000000" /\
    User.email (fields u') = "new@example.com".
Proof.
  intros updates s'.
  destruct (fst (get users shop_user demo_world shop)) as [u|] eqn:Hu;
    [|vm_compute in Hu; discriminate].
  destruct (updateUserProfile_keeps_credentials demo_world shop shop_user
              updates Hu) as [(u' & Hget & Hhash & _ & _ & _ & Hmail) _].
  exists u'. split; [exact Hget|].
  rewrite Hhash, Hmail. vm_compute in Hu. injection Hu as <-.
  split; reflexivity.
Defined.

End UserLaws.

(* ================================================================== *)
(** ** Laws of the catalog *)

Module ProductLaws.
Import InMemoryDatabase ProductService.

(** [addProduct] refuses a product whose price is [<= 0] or whose stock
    is [< 0] without touching the store; any other product is stored as
    given, and [getProduct] with the returned id finds it. *)
Theorem addProduct_result (w : World) (s : Store) (productData : Product.New) :
  let (r, s') := addProduct productData w s in
  if PrimFloat.leb (Product.price productData) 0
     || PrimFloat.ltb (Product.stock productData) 0
  then r = fail PriceAndStockMustBePositive /\ s' = s
  else exists p,
      r = ok p /\ fields p = productData /\
      getProduct (id p) w s' = (ok p, s').
Proof.
  unfold addProduct.
  destruct (_ || _); [split; reflexivity|].
  unfold bind. rewrite (RepositoryLaws.add_run (db := products)).
  cbv zeta. cbn [ret]. eexists. split; [reflexivity|]. split; [reflexivity|].
  unfold getProduct, bind, get. simpl. now rewrite Map_get_set_same.
Qed.

(** [deleteProduct] never answers 'Failed to delete product.'; an
    unknown id is answered 'Product not found.' and changes nothing; a
    known id is removed, so that [getProduct] no longer finds it, while
    every other product stays. *)
Theorem deleteProduct_result (w : World) (s : Store)
    (productId adminId : string) :
  unique_keys (productsDb s) ->
  let (r, s') := deleteProduct productId adminId w s in
  error r <> Some FailedToDeleteProduct /\
  (product_at s productId = None -> r = fail ProductNotFound /\ s' = s) /\
  (product_at s productId <> None ->
   success r = true /\ data r = Some true /\
   fst (getProduct productId w s') = fail ProductNotFound /\
   (forall k, k <> productId -> product_at s' k = product_at s k)).
Proof.
  intros Hu. unfold deleteProduct, bind, get, delete, product_at. simpl.
  destruct (Map_get (productsDb s) productId) as [p|] eqn:Hp.
  - pose proof (Map_delete_found _ _ Hp) as Hd.
    pose proof (Map_get_delete_same productId Hu) as Hsame.
    pose proof (fun k => @Map_get_delete_other _ (productsDb s) productId k)
      as Hother.
    destruct (Map_delete (productsDb s) productId) as [b m].
    simpl in Hd, Hsame, Hother. subst b. simpl.
    split; [discriminate|]. split; [discriminate|].
    intros _. unfold getProduct, bind, get. simpl. rewrite Hsame. auto.
  - simpl. split; [discriminate|]. split; [auto|].
    intros Hn. contradiction.
Qed.

Lemma deleteProduct_result_witness :
  let (r, s') := deleteProduct shop_A shop_user demo_world shop in
  success r = true /\
  fst (getProduct shop_A demo_world s') = fail ProductNotFound.
Proof.
  generalize (@deleteProduct_result demo_world shop shop_A shop_user).
  destruct (deleteProduct shop_A shop_user demo_world shop) as [r s'].
  intros Hres. destruct Hres as (_ & _ & Hknown).
  - RepositoryLaws.distinct_keys.
  - destruct Hknown as (Hok & _ & Hgone & _).
    + vm_compute. discriminate.
    + auto.
Defined.

End ProductLaws.

(* ================================================================== *)
(** ** What the lookups leave alone *)

Module ReadOnly.

(** The nine lookups of the services return their answer and leave the
    store, clock and random generator included, exactly as it was. *)
Theorem lookups_change_nothing (w : World) (s : Store) :
  (forall credentials,
      snd (UserService.authenticateUser credentials w s) = s) /\
  (forall userId, snd (UserService.getUserProfile userId w s) = s) /\
  (forall productId, snd (ProductService.getProduct productId w s) = s) /\
  (forall category, snd (ProductService.getAllProducts category w s) = s) /\
  (forall orderId, snd (OrderService.getOrder orderId w s) = s) /\
  (forall userId, snd (OrderService.getUserOrders userId w s) = s) /\
  (forall userId, snd (PaymentService.getPaymentHistory userId w s) = s) /\
  (forall productId, snd (ReviewService.getProductReviews productId w s) = s) /\
  (forall userId, snd (ReviewService.getUserReviews userId w s) = s).
Proof.
  repeat apply conj; intros.
  - unfold UserService.authenticateUser, bind, InMemoryDatabase.findBy.
    simpl. destruct (filter _ _) as [|u rest]; [reflexivity|].
    destruct (User.passwordHash (fields u)) as [h|]; [|reflexivity].
    now destruct (String.eqb _ _).
  - unfold UserService.getUserProfile, bind, InMemoryDatabase.get. simpl.
    now destruct (Map_get _ _).
  - unfold ProductService.getProduct, bind, InMemoryDatabase.get. simpl.
    now destruct (Map_get _ _).
  - unfold ProductService.getAllProducts, bind, InMemoryDatabase.getAll.
    simpl. now destruct category.
  - unfold OrderService.getOrder, bind, InMemoryDatabase.get. simpl.
    now destruct (Map_get _ _).
  - reflexivity.
  - reflexivity.
  - reflexivity.
  - reflexivity.
Qed.

End ReadOnly.

(* ================================================================== *)
(** ** Laws of the order workflow *)

Module OrderLaws.
Import InMemoryDatabase OrderService StoreInvariant.

Lemma outside_get_products s0 k :
  preserves (same_outside_products s0) (get products k).
Proof. intros w s Hs. exact Hs. Qed.

Lemma outside_update_products s0 k u :
  preserves (same_outside_products s0) (update products k u).
Proof.
  intros w s Hs. unfold update, bind, get, Date_now. simpl.
  destruct (Map_get (productsDb s) k); exact Hs.
Qed.

Lemma outside_createOrder_items s0 items : forall orderItems totalAmount,
  preserves (same_outside_products s0)
            (createOrder_items items orderItems totalAmount).
Proof.
  induction items as [|item rest IH]; intros orderItems totalAmount; simpl.
  - apply preserves_ret.
  - apply preserves_bind; [apply outside_get_products|].
    intros [p|]; [|apply preserves_ret].
    destruct (PrimFloat.ltb _ _); [apply preserves_ret|].
    apply preserves_bind; [apply outside_update_products|].
    intros _. apply IH.
Qed.

Lemma outside_restore_stock s0 items :
  preserves (same_outside_products s0) (restore_stock items).
Proof.
  induction items as [|item rest IH]; simpl.
  - apply preserves_ret.
  - apply preserves_bind; [apply outside_get_products|].
    intros [p|]; [|exact IH].
    apply preserves_bind; [apply outside_update_products|].
    intros _. exact IH.
Qed.

Lemma same_outside_products_refl s : same_outside_products s s.
Proof. repeat split. Qed.

(** The loop of [createOrder] leaves early only with a failure. *)
Lemma createOrder_items_inl items : forall orderItems totalAmount w s r s',
  createOrder_items items orderItems totalAmount w s = (inl r, s') ->
  exists e, r = fail e.
Proof.
  induction items as [|item rest IH];
    intros orderItems totalAmount w s r s' Hrun; simpl in Hrun.
  - discriminate.
  - unfold bind at 1, get at 1 in Hrun.
    destruct (Map_get _ _) as [p|].
    + destruct (PrimFloat.ltb _ _).
      * injection Hrun as <- _. eauto.
      * unfold bind at 1 in Hrun.
        destruct (update _ _ _ _ _) as [? s2]. eauto.
    + injection Hrun as <- _. eauto.
Qed.

(** [createOrder] writes to the products and orders repositories only.
    When it fails it stores no order and returns no data; when it
    succeeds it stores the order it returns, which is [Pending] and
    [Unpaid], has no shipping or delivery date, and carries the caller's
    user id, address and payment method. *)
Theorem createOrder_frame (w : World) (s s' : Store) (userId : string)
    (items : list LineItem) (shippingAddress : Address)
    (paymentMethod : PaymentMethod) (r : ApiResponse Order) :
  createOrder userId items shippingAddress paymentMethod w s = (r, s') ->
  usersDb s' = usersDb s /\ reviewsDb s' = reviewsDb s /\
  paymentsDb s' = paymentsDb s /\
  (success r = false -> ordersDb s' = ordersDb s /\ data r = None) /\
  (success r = true ->
   exists order,
     data r = Some order /\
     ordersDb s' = Map_set (ordersDb s) (id order) order /\
     order_at s' (id order) = Some order /\
     Order.userId (fields order) = userId /\
     Order.status (fields order) = Pending /\
     Order.paymentStatus (fields order) = Unpaid /\
     Order.shippingAddress (fields order) = shippingAddress /\
     Order.paymentMethod (fields order) = paymentMethod /\
     Order.shippedDate (fields order) = None /\
     Order.deliveredDate (fields order) = None).
Proof.
  intros Hrun.
  unfold createOrder, bind at 1, get at 1 in Hrun. simpl in Hrun.
  destruct (Map_get (usersDb s) userId) as [user|].
  2:{ injection Hrun as <- <-. repeat split; auto; discriminate. }
  unfold bind at 1 in Hrun.
  pose proof (@outside_createOrder_items s items [] 0%float w s
                (same_outside_products_refl s)) as Hout.
  destruct (createOrder_items items [] 0 w s) as [[response|[ois total]] s1]
    eqn:Hloop; simpl in Hout.
  - destruct (createOrder_items_inl _ _ _ _ _ Hloop) as [e ->].
    injection Hrun as <- <-.
    destruct Hout as (Hu & Ho & Hr & Hp & _).
    repeat split; auto; discriminate.
  - unfold bind in Hrun.
    rewrite (RepositoryLaws.add_run (db := orders)) in Hrun.
    cbv zeta in Hrun. injection Hrun as <- <-.
    destruct Hout as (Hu & Ho & Hr & Hp & _). simpl.
    repeat split; auto; try discriminate.
    intros _. eexists. split; [reflexivity|]. simpl.
    rewrite Ho. unfold order_at. simpl. rewrite Map_get_set_same.
    repeat split.
Qed.

Lemma createOrder_frame_witness :
  let run :=
    createOrder shop_user
      [{| item_productId := shop_A; item_quantity := 2 |};
       {| item_productId := shop_B; item_quantity := 3 |}]
      demo_address CreditCard demo_world shop in
  ordersDb (snd run) = ordersDb shop /\ data (fst run) = None.
Proof.
  intros run.
  destruct (@createOrder_frame demo_world shop (snd run) shop_user _ _ _
              (fst run) (surjective_pairing run))
    as (_ & _ & _ & Hfail & _).
  apply Hfail. vm_compute. reflexivity.
Defined.

(** An order without line items is accepted: for a known user,
    [createOrder] with an empty list stores an order with no items and a
    total of 0, and does not touch the catalog. *)
Theorem createOrder_empty (w : World) (s : Store) (userId : string)
    (user : User) (shippingAddress : Address) (paymentMethod : PaymentMethod) :
  fst (get users userId w s) = Some user ->
  let (r, s') := createOrder userId [] shippingAddress paymentMethod w s in
  exists order,
    r = ok order /\ order_at s' (id order) = Some order /\
    Order.items (fields order) = [] /\
    Order.totalAmount (fields order) = 0%float /\
    productsDb s' = productsDb s.
Proof.
  unfold get. simpl. intros Hu.
  unfold createOrder, bind, get, add, Date_now, Math_random, toString36, ret.
  simpl. rewrite Hu. simpl.
  eexists. split; [reflexivity|]. unfold order_at. simpl.
  rewrite Map_get_set_same. auto.
Qed.

Lemma createOrder_empty_witness :
  let (r, s') :=
    createOrder shop_user [] demo_address CreditCard demo_world shop in
  success r = true /\ productsDb s' = productsDb shop.
Proof.
  destruct (fst (get users shop_user demo_world shop)) as [u|] eqn:Hu;
    [|vm_compute in Hu; discriminate].
  generalize (@createOrder_empty demo_world shop shop_user u demo_address
                CreditCard Hu).
  destruct (createOrder shop_user [] demo_address CreditCard demo_world shop)
    as [r s'].
  intros (order & -> & _ & _ & _ & Hp). auto.
Defined.

(** [updateOrderStatus] on an id that is not stored answers 'Order not
    found.' and changes nothing. *)
Theorem updateOrderStatus_unknown (w : World) (s : Store) (orderId : string)
    (newStatus : OrderStatus) :
  order_at s orderId = None ->
  updateOrderStatus orderId newStatus w s = (fail OrderNotFound, s).
Proof.
  intros Ho. unfold updateOrderStatus, bind.
  rewrite (RepositoryLaws.update_run_missing (H := Updatable_Order) orders
             orderId (Order.only_status newStatus) w s Ho).
  reflexivity.
Qed.

Lemma updateOrderStatus_unknown_witness :
  updateOrderStatus shop_order Shipped demo_world shop =
  (fail OrderNotFound, shop).
Proof. apply updateOrderStatus_unknown. vm_compute. reflexivity. Defined.

Ltac finish_status o :=
  unfold order_at, same_order_content;
  repeat split; auto; simpl; auto;
  try (now destruct (Order.shippedDate (fields o)));
  try (now destruct (Order.deliveredDate (fields o))).

(** [updateOrderStatus] on a stored order succeeds and returns the order
    as now stored: it has the new status; [shippedDate] is set to the
    clock on the first move to [Shipped] and [deliveredDate] on the first
    move to [Delivered], and neither is ever overwritten; user, items,
    total, address, payment method and payment status are untouched, as
    are all other orders, the users, the reviews and the payments; and
    unless the new status is [Cancelled] the catalog is untouched too. *)
Theorem updateOrderStatus_found (w : World) (s : Store) (orderId : string)
    (newStatus : OrderStatus) (o : Order) :
  order_at s orderId = Some o ->
  let (r, s') := updateOrderStatus orderId newStatus w s in
  exists o',
    r = ok o' /\ order_at s' orderId = Some o' /\
    Order.status (fields o') = newStatus /\
    same_order_content o o' /\
    Order.shippedDate (fields o') =
      match newStatus, Order.shippedDate (fields o) with
      | Shipped, None => Some (clock w (S (ticks s)))
      | _, d => d
      end /\
    Order.deliveredDate (fields o') =
      match newStatus, Order.deliveredDate (fields o) with
      | Delivered, None => Some (clock w (S (ticks s)))
      | _, d => d
      end /\
    (forall k, k <> orderId -> order_at s' k = order_at s k) /\
    usersDb s' = usersDb s /\ reviewsDb s' = reviewsDb s /\
    paymentsDb s' = paymentsDb s /\
    (newStatus <> Cancelled -> productsDb s' = productsDb s).
Proof.
  intros Ho. unfold order_at in Ho.
  unfold updateOrderStatus, bind at 1.
  rewrite (RepositoryLaws.update_run_found (H := Updatable_Order)
             (db := orders) orderId (Order.only_status newStatus) w s Ho).
  cbv zeta.
  set (o1 := mkEntity _ _ _ _).
  set (s1 := set_collection orders _ _).
  assert (Ho1 : Map_get (ordersDb s1) orderId = Some o1)
    by (apply Map_get_set_same).
  assert (Hothers : forall k, k <> orderId ->
                              Map_get (ordersDb s1) k = Map_get (ordersDb s) k)
    by (intros k Hk; apply Map_get_set_other; congruence).
  destruct newStatus; cbn [OrderStatus_eqb andb].
  - (* Pending *)
    unfold bind, get, ret. cbn [fst snd collection orders]. rewrite Ho1.
    exists o1. finish_status o.
  - (* Processing *)
    unfold bind, get, ret. cbn [fst snd collection orders]. rewrite Ho1.
    exists o1. finish_status o.
  - (* Shipped *)
    cbn [fields o1 merge Updatable_Order Order.spread_updates
         Order.only_status Order.shippedDate spread_opt is_none].
    destruct (Order.shippedDate (fields o)) as [d|] eqn:Hd;
      cbn [is_none spread_opt Order.shippedDate' Order.only_status].
    + unfold bind, get, ret. cbn [fst snd collection orders]. rewrite Ho1.
      exists o1. finish_status o.
    + unfold bind, Date_now, ret. cbv beta iota.
      rewrite (RepositoryLaws.update_run_found (H := Updatable_Order)
                 (db := orders) orderId
                 (Order.only_shippedDate (clock w (ticks s1))) w (tick s1)
                 Ho1).
      cbv zeta. unfold get. cbv beta iota.
      cbn [fst snd collection orders set_collection ordersDb].
      rewrite Map_get_set_same.
      eexists. split; [reflexivity|].
      unfold order_at. cbn [ordersDb]. rewrite Map_get_set_same.
      simpl. rewrite ?Hd. finish_status o.
      intros k Hk. rewrite Map_get_set_other by congruence. auto.
  - (* Delivered *)
    cbn [fields o1 merge Updatable_Order Order.spread_updates
         Order.only_status Order.deliveredDate spread_opt is_none].
    destruct (Order.deliveredDate (fields o)) as [d|] eqn:Hd;
      cbn [is_none spread_opt Order.deliveredDate' Order.only_status].
    + unfold bind, get, ret. cbn [fst snd collection orders]. rewrite Ho1.
      exists o1. finish_status o.
    + unfold bind, Date_now, ret. cbv beta iota.
      rewrite (RepositoryLaws.update_run_found (H := Updatable_Order)
                 (db := orders) orderId
                 (Order.only_deliveredDate (clock w (ticks s1))) w (tick s1)
                 Ho1).
      cbv zeta. unfold get. cbv beta iota.
      cbn [fst snd collection orders set_collection ordersDb].
      rewrite Map_get_set_same.
      eexists. split; [reflexivity|].
      unfold order_at. cbn [ordersDb]. rewrite Map_get_set_same.
      simpl. rewrite ?Hd. finish_status o.
      intros k Hk. rewrite Map_get_set_other by congruence. auto.
  - (* Cancelled *)
    unfold bind at 1.
    pose proof (@outside_restore_stock s1 (Order.items (fields o1)) w s1
                  (same_outside_products_refl s1)) as Hout.
    destruct (restore_stock (Order.items (fields o1)) w s1) as [u s2].
    simpl in Hout. destruct Hout as (Hu & Hord & Hr & Hp & _).
    unfold bind, get, ret. cbn [fst snd collection orders].
    rewrite Hord, Ho1.
    exists o1. unfold order_at.
    rewrite Hord, Hu, Hr, Hp.
    finish_status o.
Qed.

Lemma updateOrderStatus_found_witness :
  let (r, s') := updateOrderStatus shop_order Shipped demo_world
                                   shop_with_order in
  exists o',
    r = ok o' /\ Order.status (fields o') = Shipped /\
    Order.shippedDate (fields o') = Some 1700000000011%Z /\
    Order.totalAmount (fields o') = 20%float /\
    productsDb s' = productsDb shop_with_order.
Proof.
  destruct (order_at shop_with_order shop_order) as [o|] eqn:Ho;
    [|vm_compute in Ho; discriminate].
  generalize (@updateOrderStatus_found demo_world shop_with_order shop_order
                Shipped o Ho).
  destruct (updateOrderStatus shop_order Shipped demo_world shop_with_order)
    as [r s'].
  intros (o' & Hr & _ & Hst & Hsame & Hship & _ & _ & _ & _ & _ & Hprod).
  exists o'. split; [exact Hr|]. split; [exact Hst|].
  destruct Hsame as (_ & _ & _ & _ & Htotal & _).
  rewrite Hship, Htotal. vm_compute in Ho. injection Ho as <-.
  repeat split. apply Hprod. discriminate.
Defined.

(** The loop of the [Cancelled] branch. *)
Lemma restore_stock_run items : forall w s,
  keyed (productsDb s) ->
  keyed (productsDb (snd (restore_stock items w s))) /\
  forall pid,
    stock_at (snd (restore_stock items w s)) pid =
    option_map (stock_restored items pid) (stock_at s pid).
Proof.
  induction items as [|item rest IH]; intros w s Hkeyed.
  - simpl. split; [exact Hkeyed|].
    intros pid. now destruct (stock_at s pid).
  - simpl. unfold bind at 1 3, get at 1 2. cbn [collection products fst snd].
    destruct (Map_get (productsDb s) (productId item)) as [p|] eqn:Hp.
    + assert (Hid : id p = productId item) by (eapply keyed_get; eauto).
      unfold bind at 1 2.
      rewrite (@OrderFacts.update_products_found w s (id p) _ p)
        by (rewrite Hid; exact Hp).
      cbv zeta.
      set (s1 := set_collection products _ _).
      destruct (IH w s1) as [Hk Hstk];
        [apply keyed_set; [exact Hkeyed | reflexivity]|].
      split; [exact Hk|].
      intros pid. rewrite Hstk. unfold stock_at, s1.
      rewrite OrderFacts.product_at_set_stock, Hid.
      destruct (String.eqb (productId item) pid) eqn:E.
      * apply String.eqb_eq in E. subst pid.
        unfold product_at. rewrite Hp. simpl.
        unfold stock_restored. simpl. rewrite String.eqb_refl. reflexivity.
      * destruct (product_at s pid); simpl; [|reflexivity].
        unfold stock_restored. simpl. rewrite E. reflexivity.
    + destruct (IH w s Hkeyed) as [Hk Hstk]. split; [exact Hk|].
      intros pid. rewrite Hstk. unfold stock_at.
      destruct (String.eqb (productId item) pid) eqn:E.
      * apply String.eqb_eq in E. subst pid.
        unfold product_at. rewrite Hp. reflexivity.
      * destruct (product_at s pid); simpl; [|reflexivity].
        unfold stock_restored. simpl. rewrite E. reflexivity.
Qed.

(** Cancelling gives stock back: every call of [updateOrderStatus] with
    [Cancelled] on a stored order adds, to each product still in the
    catalog, the quantity of every order item that names it; items whose
    product is gone are skipped. *)
Theorem cancel_restores_stock (w : World) (s : Store) (orderId : string)
    (o : Order) :
  keyed (productsDb s) ->
  order_at s orderId = Some o ->
  forall pid,
    stock_at (snd (updateOrderStatus orderId Cancelled w s)) pid =
    option_map (stock_restored (Order.items (fields o)) pid) (stock_at s pid).
Proof.
  intros Hkeyed Ho pid. unfold order_at in Ho.
  unfold updateOrderStatus, bind at 1.
  rewrite (RepositoryLaws.update_run_found (H := Updatable_Order)
             (db := orders) orderId (Order.only_status Cancelled) w s Ho).
  cbv zeta. cbn [OrderStatus_eqb andb].
  set (s1 := set_collection orders _ _).
  unfold bind at 1.
  destruct (@restore_stock_run (Order.items (fields o)) w s1 Hkeyed)
    as [_ Hstk].
  specialize (Hstk pid).
  cbn [fields merge Updatable_Order Order.spread_updates Order.only_status
       Order.items Order.items' spread].
  destruct (restore_stock (Order.items (fields o)) w s1) as [u s2].
  unfold bind, get, ret. cbn [fst snd] in *.
  exact Hstk.
Qed.

Lemma cancel_restores_stock_witness :
  stock_at (snd (updateOrderStatus shop_order Cancelled demo_world
                                   shop_with_order)) shop_A = Some 5%float.
Proof.
  destruct (order_at shop_with_order shop_order) as [o|] eqn:Ho;
    [|vm_compute in Ho; discriminate].
  rewrite (@cancel_restores_stock demo_world shop_with_order shop_order o).
  - vm_compute in Ho. injection Ho as <-. vm_compute. reflexivity.
  - vm_compute. repeat constructor.
  - exact Ho.
Defined.

(** [createOrder] accepts every request of a known user whose line
    items are all in stock, each against what the items before it left. *)
Theorem createOrder_accepts_in_stock (w : World) (s : Store)
    (userId : string) (user : User) (items : list LineItem)
    (shippingAddress : Address) (paymentMethod : PaymentMethod) :
  keyed (productsDb s) ->
  fst (get users userId w s) = Some user ->
  all_in_stock s items ->
  success (fst (createOrder userId items shippingAddress paymentMethod w s))
  = true.
Proof.
  intros Hkeyed Huser Hstock.
  eapply OrderFacts.createOrder_succeeds; eauto.
Qed.

Lemma createOrder_accepts_in_stock_witness :
  success (fst (createOrder shop_user
                  [{| item_productId := shop_A; item_quantity := 2 |};
                   {| item_productId := shop_A; item_quantity := 3 |}]
                  demo_address CreditCard demo_world shop)) = true.
Proof.
  destruct (fst (get users shop_user demo_world shop)) as [u|] eqn:Hu;
    [|vm_compute in Hu; discriminate].
  apply (@createOrder_accepts_in_stock demo_world shop shop_user u).
  - vm_compute. repeat constructor.
  - exact Hu.
  - intros before item after Hsplit.
    destruct before as [|b1 [|b2 [|b3 before]]]; simpl in Hsplit.
    + injection Hsplit as <- _. eexists. split; vm_compute; reflexivity.
    + injection Hsplit as <- <- _.
      eexists. split; vm_compute; reflexivity.
    + discriminate.
    + destruct before; discriminate.
Defined.

(** A request that fails on its user or on its first line item fails
    before anything is written: the store is exactly as before. *)
Theorem createOrder_fails_before_writing (w : World) (s : Store)
    (userId : string) (item : LineItem) (rest : list LineItem)
    (shippingAddress : Address) (paymentMethod : PaymentMethod) :
  fst (get users userId w s) = None \/
  match product_at s (item_productId item) with
  | None => True
  | Some p =>
      PrimFloat.ltb (Product.stock (fields p)) (item_quantity item) = true
  end ->
  exists e,
    createOrder userId (item :: rest) shippingAddress paymentMethod w s =
    (fail e, s).
Proof.
  intros [Huser|Hfirst].
  - exists UserNotFound. now apply OrderFacts.createOrder_unknown_user.
  - now apply OrderFacts.createOrder_first_item_fails.
Qed.

Lemma createOrder_fails_before_writing_witness :
  exists e,
    createOrder shop_user
      [{| item_productId := shop_B; item_quantity := 3 |};
       {| item_productId := shop_A; item_quantity := 2 |}]
      demo_address CreditCard demo_world shop = (fail e, shop).
Proof.
  apply createOrder_fails_before_writing. right. vm_compute. reflexivity.
Defined.

End OrderLaws.

(* ================================================================== *)
(** ** Laws of the payment processor *)

Module PaymentLaws.
Import InMemoryDatabase PaymentService.

Lemma In_values_set (T : Type) (m : Map T) k v :
  In v (Map_values (Map_set m k v)).
Proof.
  unfold Map_values. induction m as [|[k' v'] m IH]; simpl; [auto|].
  destruct (String.eqb k' k); simpl; auto.
Qed.

Lemma not_turned_down s orderId userId amount :
  ~ turned_down s orderId userId amount ->
  rejected (order_at s orderId) userId amount = false.
Proof.
  intros Hn. destruct (rejected _ _ _) eqn:E; [|reflexivity].
  apply PaymentFacts.rejected_iff in E. contradiction.
Qed.

(** What [processPayment] does with a request it does not turn down. *)
#[warnings="-inexact-float"]
Lemma processPayment_run orderId userId amount method w s :
  rejected (order_at s orderId) userId amount = false ->
  processPayment orderId userId amount method w s =
  let status :=
    if PrimFloat.ltb 0.1 (random w (S (draws s))) then Success else Failed in
  let txn :=
    mkEntity
      (entity_id (clock w (S (ticks s)))
                 (radix36 w (random w (S (S (draws s))))))
      (clock w (S (S (ticks s)))) (clock w (S (S (ticks s))))
      {| PaymentTransaction.orderId := orderId;
         PaymentTransaction.userId := userId;
         PaymentTransaction.amount := amount;
         PaymentTransaction.method := method;
         PaymentTransaction.transactionId :=
           txn_id (clock w (ticks s)) (radix36 w (random w (draws s)));
         PaymentTransaction.status := status |} in
  let s1 :=
    set_collection payments (Map_set (paymentsDb s) (id txn) txn)
                   (tick (draw (tick (draw (draw (tick s)))))) in
  match status with
  | Success =>
      (Build_ApiResponse true (Some txn) (Some "Payment successful!") None,
       snd (update orders orderId Order.paid_processing w s1))
  | _ =>
      (Build_ApiResponse false (Some txn) None (Some PaymentFailed), s1)
  end.
Proof.
  intros Hrej. unfold processPayment, bind at 1, get at 1.
  cbn [collection orders fst snd]. unfold order_at in Hrej. rewrite Hrej.
  unfold add, bind, Date_now, Math_random, toString36. cbv beta iota zeta.
  cbn [ticks draws tick draw collection payments set_collection paymentsDb].
  destruct (PrimFloat.ltb _ _); cbn [TransactionStatus_eqb].
  - destruct (update (H := Updatable_Order) orders orderId
                     Order.paid_processing w _). reflexivity.
  - reflexivity.
Qed.

Lemma update_orders_frame k u w s :
  let s' := snd (update (H := Updatable_Order) orders k u w s) in
  usersDb s' = usersDb s /\ productsDb s' = productsDb s /\
  reviewsDb s' = reviewsDb s /\ paymentsDb s' = paymentsDb s.
Proof.
  unfold update, bind, get, Date_now. simpl.
  destruct (Map_get (ordersDb s) k); simpl; auto.
Qed.

(** Every request that is not turned down is recorded, whatever the
    gateway decides: the transaction returned in [data] carries the
    request's order, user, amount and method, is stored under its id, and
    is listed by [getPaymentHistory] for that user. *)
Theorem payment_recorded (w : World) (s : Store) (orderId userId : string)
    (amount : number) (method : PaymentMethod) :
  ~ turned_down s orderId userId amount ->
  let (r, s') := processPayment orderId userId amount method w s in
  exists txn history,
    data r = Some txn /\
    PaymentTransaction.orderId (fields txn) = orderId /\
    PaymentTransaction.userId (fields txn) = userId /\
    PaymentTransaction.amount (fields txn) = amount /\
    PaymentTransaction.method (fields txn) = method /\
    (success r = true <-> PaymentTransaction.status (fields txn) = Success) /\
    (success r = false <-> PaymentTransaction.status (fields txn) = Failed) /\
    Map_get (paymentsDb s') (id txn) = Some txn /\
    fst (getPaymentHistory userId w s') = ok history /\
    In txn history.
Proof.
  intros Hn. apply not_turned_down in Hn.
  rewrite (processPayment_run _ _ _ method w _ Hn). cbv zeta.
  set (s1 := set_collection payments _ _).
  assert (Hlisted : forall txn : PaymentTransaction,
             PaymentTransaction.userId (fields txn) = userId ->
             forall m k,
               In txn (filter (fun item => strict_eq (userId_of item) userId)
                              (Map_values (Map_set m k txn)))).
  { intros txn Hu m k. apply filter_In. split; [apply In_values_set|].
    unfold userId_of, strict_eq, StrictEq_string. rewrite Hu.
    apply String.eqb_refl. }
  destruct (PrimFloat.ltb _ _).
  - (* the gateway accepts *)
    destruct (update_orders_frame orderId Order.paid_processing w s1)
      as (_ & _ & _ & Hpay).
    eexists. eexists.
    unfold getPaymentHistory, bind, findBy, ret.
    cbn [fst snd data success fields id collection payments
         PaymentTransaction.orderId PaymentTransaction.userId
         PaymentTransaction.amount PaymentTransaction.method
         PaymentTransaction.status].
    rewrite Hpay.
    repeat split; try discriminate; try reflexivity.
    + apply Map_get_set_same.
    + apply Hlisted. reflexivity.
  - eexists. eexists.
    unfold getPaymentHistory, bind, findBy, ret.
    cbn [fst snd data success fields id collection payments
         PaymentTransaction.orderId PaymentTransaction.userId
         PaymentTransaction.amount PaymentTransaction.method
         PaymentTransaction.status].
    repeat split; try discriminate; try reflexivity.
    + apply Map_get_set_same.
    + apply Hlisted. reflexivity.
Qed.

Lemma payment_recorded_witness :
  let (r, s') := processPayment shop_order shop_user 20 CreditCard
                                demo_world shop_with_order in
  exists txn history,
    data r = Some txn /\
    fst (getPaymentHistory shop_user demo_world s') = ok history /\
    In txn history.
Proof.
  generalize (@payment_recorded demo_world shop_with_order shop_order
                shop_user 20%float CreditCard).
  destruct (processPayment shop_order shop_user 20 CreditCard demo_world
                           shop_with_order) as [r s'].
  intros Hrec. destruct Hrec as (txn & history & Hd & _ & _ & _ & _ & _ & _
                                 & _ & Hh & Hin).
  - vm_compute. intros [Hu|[Ha|Hp]]; try discriminate. now apply Hu.
  - exists txn, history. auto.
Defined.

(** A payment the gateway accepts marks the order [Paid] and
    [Processing], refreshes its [updatedAt] and changes nothing else of
    it; the other orders and the catalog are untouched; and the order
    cannot be paid again: every further [processPayment] for it is turned
    down and changes nothing. *)
#[warnings="-inexact-float"]
Theorem successful_payment (w : World) (s : Store) (orderId userId : string)
    (amount : number) (method : PaymentMethod) (o : Order) :
  order_at s orderId = Some o ->
  ~ turned_down s orderId userId amount ->
  PrimFloat.ltb 0.1 (random w (S (draws s))) = true ->
  let (r, s') := processPayment orderId userId amount method w s in
  success r = true /\ message r = Some "Payment successful!" /\
  (exists o',
      order_at s' orderId = Some o' /\
      Order.paymentStatus (fields o') = Paid /\
      Order.status (fields o') = Processing /\
      id o' = id o /\ createdAt o' = createdAt o /\
      Order.userId (fields o') = Order.userId (fields o) /\
      Order.items (fields o') = Order.items (fields o) /\
      Order.totalAmount (fields o') = Order.totalAmount (fields o) /\
      Order.shippingAddress (fields o') = Order.shippingAddress (fields o) /\
      Order.paymentMethod (fields o') = Order.paymentMethod (fields o) /\
      Order.shippedDate (fields o') = Order.shippedDate (fields o) /\
      Order.deliveredDate (fields o') = Order.deliveredDate (fields o) /\
      updatedAt o' = clock w (S (S (S (ticks s))))) /\
  (forall k, k <> orderId -> order_at s' k = order_at s k) /\
  productsDb s' = productsDb s /\
  (forall userId' amount' method',
      processPayment orderId userId' amount' method' w s' =
      (fail InvalidOrderOrAlreadyPaid, s')).
Proof.
  intros Ho Hn Hgate. apply not_turned_down in Hn.
  rewrite (processPayment_run _ _ _ method w _ Hn). cbv zeta.
  rewrite Hgate.
  set (s1 := set_collection payments _ _).
  unfold order_at in Ho.
  assert (Ho1 : Map_get (collection orders s1) orderId = Some o) by exact Ho.
  rewrite (RepositoryLaws.update_run_found (H := Updatable_Order)
             (db := orders) orderId Order.paid_processing w s1 Ho1).
  cbv zeta. cbn [snd].
  split; [reflexivity|]. split; [reflexivity|].
  unfold order_at. cbn [ordersDb set_collection orders].
  split; [|split; [|split]].
  - eexists. split; [apply Map_get_set_same|].
    simpl. repeat split;
      try (now destruct (Order.shippedDate (fields o)));
      try (now destruct (Order.deliveredDate (fields o))).
  - intros k Hk. rewrite Map_get_set_other by congruence. reflexivity.
  - reflexivity.
  - intros userId' amount' method'.
    unfold processPayment, bind at 1, get at 1.
    cbn [collection orders ordersDb set_collection fst snd].
    rewrite Map_get_set_same.
    unfold rejected. simpl.
    rewrite !orb_true_r. reflexivity.
Qed.

Lemma successful_payment_witness :
  let (r, s') := processPayment shop_order shop_user 20 CreditCard
                                demo_world shop_with_order in
  success r = true /\
  processPayment shop_order shop_user 20 CreditCard demo_world s' =
  (fail InvalidOrderOrAlreadyPaid, s').
Proof.
  destruct (order_at shop_with_order shop_order) as [o|] eqn:Ho;
    [|vm_compute in Ho; discriminate].
  generalize (@successful_payment demo_world shop_with_order shop_order
                shop_user 20%float CreditCard o Ho).
  destruct (processPayment shop_order shop_user 20 CreditCard demo_world
                           shop_with_order) as [r s'].
  intros Hpaid. destruct Hpaid as (Hok & _ & _ & _ & _ & Hagain).
  - vm_compute. intros [Hu|[Ha|Hp]]; try discriminate. now apply Hu.
  - vm_compute. reflexivity.
  - auto.
Defined.

End PaymentLaws.

(* ================================================================== *)
(** ** Laws of the review aggregator *)

Module ReviewLaws.
Import InMemoryDatabase ReviewService.

(** A review whose rating is below 1 or above 5 is refused with 'Rating
    must be between 1 and 5.', whatever its product; a review with a
    rating in range whose product is not in the catalog is refused with
    'Product not found for review.'; in both cases nothing is stored. *)
Theorem submitReview_refused (w : World) (s : Store)
    (reviewData : Review.New) :
  (PrimFloat.ltb (Review.rating reviewData) 1 = true \/
   PrimFloat.ltb 5 (Review.rating reviewData) = true ->
   submitReview reviewData w s = (fail RatingOutOfRange, s)) /\
  (PrimFloat.ltb (Review.rating reviewData) 1 = false ->
   PrimFloat.ltb 5 (Review.rating reviewData) = false ->
   product_at s (Review.productId reviewData) = None ->
   submitReview reviewData w s = (fail ProductNotFoundForReview, s)).
Proof.
  unfold submitReview. split.
  - intros [-> | ->]; [reflexivity | now rewrite orb_true_r].
  - intros -> -> Hmissing. simpl.
    unfold bind, get. simpl. unfold product_at in Hmissing.
    now rewrite Hmissing.
Qed.

Lemma submitReview_refused_witness :
  submitReview (demo_review shop_A 6) demo_world shop =
  (fail RatingOutOfRange, shop) /\
  submitReview (demo_review shop_order 4) demo_world shop =
  (fail ProductNotFoundForReview, shop).
Proof.
  split.
  - apply (proj1 (submitReview_refused demo_world shop
                    (demo_review shop_A 6))).
    right. vm_compute. reflexivity.
  - apply (proj2 (submitReview_refused demo_world shop
                    (demo_review shop_order 4))); vm_compute; reflexivity.
Defined.

(** An accepted review is stored as given and listed by
    [getProductReviews] for its product; of the catalog only the
    reviewed product changes, and of it only [rating], [reviewsCount]
    and [updatedAt]; users, orders and payments are untouched. *)
Theorem submitReview_stores_review (w : World) (s s' : Store)
    (reviewData : Review.New) (r : ApiResponse Review) :
  keyed (productsDb s) ->
  submitReview reviewData w s = (r, s') ->
  success r = true ->
  exists review listed p p',
    r = ok review /\ fields review = reviewData /\
    Map_get (reviewsDb s') (id review) = Some review /\
    fst (getProductReviews (Review.productId reviewData) w s') = ok listed /\
    In review listed /\
    product_at s (Review.productId reviewData) = Some p /\
    product_at s' (Review.productId reviewData) = Some p' /\
    id p' = id p /\ createdAt p' = createdAt p /\
    Product.name (fields p') = Product.name (fields p) /\
    Product.description (fields p') = Product.description (fields p) /\
    Product.price (fields p') = Product.price (fields p) /\
    Product.category (fields p') = Product.category (fields p) /\
    Product.stock (fields p') = Product.stock (fields p) /\
    Product.imageUrl (fields p') = Product.imageUrl (fields p) /\
    Product.sellerId (fields p') = Product.sellerId (fields p) /\
    (forall k, k <> Review.productId reviewData ->
               product_at s' k = product_at s k) /\
    usersDb s' = usersDb s /\ ordersDb s' = ordersDb s /\
    paymentsDb s' = paymentsDb s.
Proof.
  intros Hkeyed Hrun Hok.
  unfold submitReview in Hrun.
  destruct (_ || _); [injection Hrun as <- <-; discriminate|].
  unfold bind at 1, get at 1 in Hrun. cbn [collection products] in Hrun.
  destruct (Map_get (productsDb s) (Review.productId reviewData))
    as [p|] eqn:Hp; [|injection Hrun as <- <-; discriminate].
  assert (Hid : id p = Review.productId reviewData)
    by (eapply keyed_get; eauto).
  unfold bind at 1 in Hrun.
  rewrite ReviewFacts.add_reviews_run in Hrun. cbv zeta in Hrun.
  set (newReview := mkEntity _ _ _ reviewData) in Hrun.
  set (s1 := set_collection reviews _ _) in Hrun.
  unfold bind at 1, findBy in Hrun.
  set (productReviews := filter _ _) in Hrun.
  unfold bind at 1 in Hrun.
  rewrite (@OrderFacts.update_products_found w s1 (id p) _ p) in Hrun
    by (rewrite Hid; exact Hp).
  cbv zeta in Hrun. unfold ret in Hrun. injection Hrun as <- <-.
  exists newReview. eexists. exists p. eexists.
  unfold getProductReviews, bind, findBy, ret, product_at.
  cbn [fst snd fields collection reviews products reviewsDb productsDb
       usersDb ordersDb paymentsDb set_collection s1 tick draw].
  rewrite <- Hid, !Map_get_set_same.
  split; [reflexivity|]. split; [reflexivity|]. split; [reflexivity|].
  split; [reflexivity|].
  split.
  { apply filter_In. split; [apply PaymentLaws.In_values_set|].
    unfold productId_of, strict_eq, StrictEq_string. simpl.
    rewrite Hid. apply String.eqb_refl. }
  split; [rewrite Hid; exact Hp|].
  split; [reflexivity|].
  simpl. repeat split.
  intros k Hk. apply Map_get_set_other. congruence.
Qed.

Lemma submitReview_stores_review_witness :
  let run := submitReview (demo_review shop_A 4) demo_world shop in
  exists review listed,
    fst run = ok review /\
    fst (getProductReviews shop_A demo_world (snd run)) = ok listed /\
    In review listed /\
    stock_at (snd run) shop_A = stock_at shop shop_A.
Proof.
  intros run.
  destruct (@submitReview_stores_review demo_world shop (snd run)
              (demo_review shop_A 4) (fst run))
    as (review & listed & p & p' & Hr & _ & _ & Hlist & Hin & Hp & Hp'
        & _ & _ & _ & _ & _ & _ & Hstock & _).
  - vm_compute. repeat constructor.
  - apply surjective_pairing.
  - vm_compute. reflexivity.
  - exists review, listed. split; [exact Hr|]. split; [exact Hlist|].
    split; [exact Hin|].
    unfold stock_at.
    change shop_A with (Review.productId (demo_review shop_A 4)).
    rewrite Hp, Hp'. simpl. now rewrite Hstock.
Defined.

End ReviewLaws.

(* ================================================================== *)
(** ** Orders are frozen *)

Module FrozenOrders.
Import InMemoryDatabase.

(** Nothing outside the order workflow and the payment processor writes
    to the orders repository: registering or updating a user, adding,
    updating or deleting a product (a price change included) and
    submitting a review leave every stored order, with its items, prices
    and total, exactly as it was. *)
Theorem orders_untouched (w : World) (s : Store) :
  (forall userData,
      ordersDb (snd (UserService.registerUser userData w s)) = ordersDb s) /\
  (forall userId updates,
      ordersDb (snd (UserService.updateUserProfile userId updates w s))
      = ordersDb s) /\
  (forall productData,
      ordersDb (snd (ProductService.addProduct productData w s))
      = ordersDb s) /\
  (forall productId updates,
      ordersDb (snd (ProductService.updateProduct productId updates w s))
      = ordersDb s) /\
  (forall productId adminId,
      ordersDb (snd (ProductService.deleteProduct productId adminId w s))
      = ordersDb s) /\
  (forall reviewData,
      ordersDb (snd (ReviewService.submitReview reviewData w s))
      = ordersDb s).
Proof.
  repeat apply conj.
  - intros userData.
    unfold UserService.registerUser, add, findBy, bind, Date_now,
      Math_random, toString36, ret.
    simpl. now destruct (0 <? _)%nat.
  - intros userId updates.
    unfold UserService.updateUserProfile, update, get, bind, Date_now, ret.
    simpl. now destruct (Map_get (usersDb s) userId).
  - intros productData.
    unfold ProductService.addProduct, add, bind, Date_now, Math_random,
      toString36, ret.
    now destruct (_ || _).
  - intros productId updates.
    unfold ProductService.updateProduct, update, get, bind, Date_now, ret.
    simpl. now destruct (Map_get (productsDb s) productId).
  - intros productId adminId.
    unfold ProductService.deleteProduct, delete, get, bind, ret. simpl.
    destruct (Map_get (productsDb s) productId); [|reflexivity].
    destruct (Map_delete (productsDb s) productId) as [[|] m]; reflexivity.
  - intros reviewData.
    unfold ReviewService.submitReview.
    destruct (_ || _); [reflexivity|].
    unfold bind at 1, get at 1. cbn [collection products fst snd].
    destruct (Map_get (productsDb s) (Review.productId reviewData)) as [p|];
      [|reflexivity].
    unfold bind at 1. rewrite ReviewFacts.add_reviews_run. cbv zeta.
    set (s1 := set_collection reviews _ _).
    unfold bind at 1, findBy. unfold bind, ret.
    set (updates := Product.only_rating _ _).
    pose proof (@OrderLaws.outside_update_products s1 (id p) updates w s1
                  (OrderLaws.same_outside_products_refl s1)) as Hout.
    destruct (update (H := Updatable_Product) products (id p) updates w s1)
      as [x s2].
    destruct Hout as (_ & Hord & _). exact Hord.
Qed.

End FrozenOrders.
